(** * Outbound messages of the Mailgun client: construction, validation, Send

    A shallow embedding of [messages.go]: the [Message] accumulator and its
    mutators, [validateMessage] / [validateStringList], and [Send], which
    validates a message, flattens it into a form payload and performs one
    exchange with the HTTP transport.

    Conventions.
    - A Go slice is [None] when it is [nil] and [Some l] otherwise; only
      [nil]-ness, length and the elements are observed by this file's code.
    - A Go [map[string]string] is [None] when [nil], else a [gmap].
    - [*Message] arguments are pointers into a store of messages, so that
      "Send does not modify the message" is a statement about the store.
    - Everything the package imports (encoding/json, time, simplehttp) and
      the parts of the package that live in other files (the [mailgunImpl]
      client, its URL and credentials) are fields of the class [Externals]. *)

From Stdlib Require Import String Ascii List Bool Arith Lia.
From stdpp Require Import base option list gmap strings fin_maps.

Open Scope string_scope.
Open Scope list_scope.

(** ** Go values used by the package *)

(** Go's [error] interface.  [errors_New] is what [errors.New] builds (the
    only error the package creates itself); errors handed back by the
    libraries are opaque to the package. *)
Inductive error : Type :=
  | errors_New (text : string)
  | library_error (text : string).

(** [nil] is [None]. *)
Definition slice (A : Type) : Type := option (list A).

Definition elements {A : Type} (s : slice A) : list A :=
  match s with
  | None => []
  | Some l => l
  end.

(** The builtin [len]. *)
Definition len {A : Type} (s : slice A) : nat := length (elements s).

(** The builtin [append(s, x)]: the result is never [nil]. *)
Definition go_append {A : Type} (s : slice A) (x : A) : slice A :=
  Some (elements s ++ [x]).

(** A variadic parameter [xs ...T] called with no argument is [nil]. *)
Definition variadic {A : Type} (args : list A) : slice A :=
  match args with
  | [] => None
  | _ :: _ => Some args
  end.

(** ** The form payload handed to the transport

    A [simplehttp.FormDataPayload] is represented by the sequence of
    [AddValue] and [AddFile] calls made on it, in call order. *)
Inductive FormEntry : Type :=
  | FormValue (key value : string)
  | FormFile (key file : string).

Definition FormDataPayload : Type := list FormEntry.

Definition NewFormDataPayload : FormDataPayload := [].

Definition AddValue (key value : string) (p : FormDataPayload)
  : FormDataPayload := p ++ [FormValue key value].

Definition AddFile (key file : string) (p : FormDataPayload)
  : FormDataPayload := p ++ [FormFile key file].

(** The values transmitted under one wire field name, in order. *)
Fixpoint field_values (key : string) (p : FormDataPayload) : list string :=
  match p with
  | [] => []
  | FormValue k v :: rest =>
      if String.eqb k key then v :: field_values key rest
      else field_values key rest
  | FormFile _ _ :: rest => field_values key rest
  end.

Record HTTPRequest : Type := mkHTTPRequest {
  URL : string;
  basicAuth : option (string * string)
}.

Definition NewHTTPRequest (url : string) : HTTPRequest :=
  {| URL := url; basicAuth := None |}.

Definition SetBasicAuth (user password : string) (r : HTTPRequest)
  : HTTPRequest :=
  {| URL := URL r; basicAuth := Some (user, password) |}.

Record sendMessageResponse : Type := mkSendMessageResponse {
  resp_Message : string;
  resp_Id : string
}.

(** One request/response exchange seen by the transport. *)
Definition Exchange : Type := (HTTPRequest * FormDataPayload)%type.

(** ** What the package takes from elsewhere *)
Class Externals : Type := {
  (** values of type [interface{}] passed to [AddVariable] *)
  GoValue : Type;
  (** [json.Marshal], with the resulting bytes read as a string *)
  json_Marshal : GoValue -> string + error;
  (** [time.Time] and its [Format] method *)
  Time : Type;
  time_Format : Time -> string -> string;
  (** the client, declared in another file of the package *)
  mailgunImpl : Type;
  ApiKey : mailgunImpl -> string;
  generateApiUrl : mailgunImpl -> string -> string;
  messagesEndpoint : string;
  basicAuthUser : string;
  (** the request's [PostResponseFromJSON] method: given the exchanges made so
      far, the request and the payload, the contents of the response
      structure after the call and the error returned *)
  PostResponseFromJSON :
    list Exchange -> HTTPRequest -> FormDataPayload ->
    sendMessageResponse * option error;
  (** [for k, v := range m]: Go leaves the order unspecified *)
  range_map : gmap string string -> list (string * string);
  range_map_perm : forall m, range_map m ≡ₚ map_to_list m
}.

Section Mailgun.
Context `{Ext : Externals}.

(** ** The message *)
Record Message : Type := mkMessage {
  from : string;
  to : slice string;
  cc : slice string;
  bcc : slice string;
  subject : string;
  text : string;
  html : string;
  tags : slice string;
  campaigns : slice string;
  dkim : bool;
  deliveryTime : option Time;
  attachments : slice string;
  inlines : slice string;

  testMode : bool;
  tracking : bool;
  trackingClicks : bool;
  trackingOpens : bool;
  headers : option (gmap string string);
  variables : option (gmap string string);

  dkimSet : bool;
  trackingSet : bool;
  trackingClicksSet : bool;
  trackingOpensSet : bool
}.

(** Field assignments [m.f = v], one per field that some method writes. *)
Definition set_to (v : slice string) (m : Message) : Message :=
  {| from := from m; to := v; cc := cc m; bcc := bcc m; subject := subject m;
     text := text m; html := html m; tags := tags m;
     campaigns := campaigns m; dkim := dkim m;
     deliveryTime := deliveryTime m; attachments := attachments m;
     inlines := inlines m; testMode := testMode m; tracking := tracking m;
     trackingClicks := trackingClicks m; trackingOpens := trackingOpens m;
     headers := headers m; variables := variables m; dkimSet := dkimSet m;
     trackingSet := trackingSet m; trackingClicksSet := trackingClicksSet m;
     trackingOpensSet := trackingOpensSet m |}.

Definition set_cc (v : slice string) (m : Message) : Message :=
  {| from := from m; to := to m; cc := v; bcc := bcc m; subject := subject m;
     text := text m; html := html m; tags := tags m;
     campaigns := campaigns m; dkim := dkim m;
     deliveryTime := deliveryTime m; attachments := attachments m;
     inlines := inlines m; testMode := testMode m; tracking := tracking m;
     trackingClicks := trackingClicks m; trackingOpens := trackingOpens m;
     headers := headers m; variables := variables m; dkimSet := dkimSet m;
     trackingSet := trackingSet m; trackingClicksSet := trackingClicksSet m;
     trackingOpensSet := trackingOpensSet m |}.

Definition set_bcc (v : slice string) (m : Message) : Message :=
  {| from := from m; to := to m; cc := cc m; bcc := v; subject := subject m;
     text := text m; html := html m; tags := tags m;
     campaigns := campaigns m; dkim := dkim m;
     deliveryTime := deliveryTime m; attachments := attachments m;
     inlines := inlines m; testMode := testMode m; tracking := tracking m;
     trackingClicks := trackingClicks m; trackingOpens := trackingOpens m;
     headers := headers m; variables := variables m; dkimSet := dkimSet m;
     trackingSet := trackingSet m; trackingClicksSet := trackingClicksSet m;
     trackingOpensSet := trackingOpensSet m |}.

Definition set_html (v : string) (m : Message) : Message :=
  {| from := from m; to := to m; cc := cc m; bcc := bcc m;
     subject := subject m; text := text m; html := v; tags := tags m;
     campaigns := campaigns m; dkim := dkim m;
     deliveryTime := deliveryTime m; attachments := attachments m;
     inlines := inlines m; testMode := testMode m; tracking := tracking m;
     trackingClicks := trackingClicks m; trackingOpens := trackingOpens m;
     headers := headers m; variables := variables m; dkimSet := dkimSet m;
     trackingSet := trackingSet m; trackingClicksSet := trackingClicksSet m;
     trackingOpensSet := trackingOpensSet m |}.

Definition set_tags (v : slice string) (m : Message) : Message :=
  {| from := from m; to := to m; cc := cc m; bcc := bcc m;
     subject := subject m; text := text m; html := html m; tags := v;
     campaigns := campaigns m; dkim := dkim m;
     deliveryTime := deliveryTime m; attachments := attachments m;
     inlines := inlines m; testMode := testMode m; tracking := tracking m;
     trackingClicks := trackingClicks m; trackingOpens := trackingOpens m;
     headers := headers m; variables := variables m; dkimSet := dkimSet m;
     trackingSet := trackingSet m; trackingClicksSet := trackingClicksSet m;
     trackingOpensSet := trackingOpensSet m |}.

Definition set_campaigns (v : slice string) (m : Message) : Message :=
  {| from := from m; to := to m; cc := cc m; bcc := bcc m;
     subject := subject m; text := text m; html := html m; tags := tags m;
     campaigns := v; dkim := dkim m; deliveryTime := deliveryTime m;
     attachments := attachments m; inlines := inlines m;
     testMode := testMode m; tracking := tracking m;
     trackingClicks := trackingClicks m; trackingOpens := trackingOpens m;
     headers := headers m; variables := variables m; dkimSet := dkimSet m;
     trackingSet := trackingSet m; trackingClicksSet := trackingClicksSet m;
     trackingOpensSet := trackingOpensSet m |}.

Definition set_dkim (v : bool) (m : Message) : Message :=
  {| from := from m; to := to m; cc := cc m; bcc := bcc m;
     subject := subject m; text := text m; html := html m; tags := tags m;
     campaigns := campaigns m; dkim := v; deliveryTime := deliveryTime m;
     attachments := attachments m; inlines := inlines m;
     testMode := testMode m; tracking := tracking m;
     trackingClicks := trackingClicks m; trackingOpens := trackingOpens m;
     headers := headers m; variables := variables m; dkimSet := dkimSet m;
     trackingSet := trackingSet m; trackingClicksSet := trackingClicksSet m;
     trackingOpensSet := trackingOpensSet m |}.

Definition set_deliveryTime (v : option Time) (m : Message) : Message :=
  {| from := from m; to := to m; cc := cc m; bcc := bcc m;
     subject := subject m; text := text m; html := html m; tags := tags m;
     campaigns := campaigns m; dkim := dkim m; deliveryTime := v;
     attachments := attachments m; inlines := inlines m;
     testMode := testMode m; tracking := tracking m;
     trackingClicks := trackingClicks m; trackingOpens := trackingOpens m;
     headers := headers m; variables := variables m; dkimSet := dkimSet m;
     trackingSet := trackingSet m; trackingClicksSet := trackingClicksSet m;
     trackingOpensSet := trackingOpensSet m |}.

Definition set_attachments (v : slice string) (m : Message) : Message :=
  {| from := from m; to := to m; cc := cc m; bcc := bcc m;
     subject := subject m; text := text m; html := html m; tags := tags m;
     campaigns := campaigns m; dkim := dkim m;
     deliveryTime := deliveryTime m; attachments := v; inlines := inlines m;
     testMode := testMode m; tracking := tracking m;
     trackingClicks := trackingClicks m; trackingOpens := trackingOpens m;
     headers := headers m; variables := variables m; dkimSet := dkimSet m;
     trackingSet := trackingSet m; trackingClicksSet := trackingClicksSet m;
     trackingOpensSet := trackingOpensSet m |}.

Definition set_inlines (v : slice string) (m : Message) : Message :=
  {| from := from m; to := to m; cc := cc m; bcc := bcc m;
     subject := subject m; text := text m; html := html m; tags := tags m;
     campaigns := campaigns m; dkim := dkim m;
     deliveryTime := deliveryTime m; attachments := attachments m;
     inlines := v; testMode := testMode m; tracking := tracking m;
     trackingClicks := trackingClicks m; trackingOpens := trackingOpens m;
     headers := headers m; variables := variables m; dkimSet := dkimSet m;
     trackingSet := trackingSet m; trackingClicksSet := trackingClicksSet m;
     trackingOpensSet := trackingOpensSet m |}.

Definition set_testMode (v : bool) (m : Message) : Message :=
  {| from := from m; to := to m; cc := cc m; bcc := bcc m;
     subject := subject m; text := text m; html := html m; tags := tags m;
     campaigns := campaigns m; dkim := dkim m;
     deliveryTime := deliveryTime m; attachments := attachments m;
     inlines := inlines m; testMode := v; tracking := tracking m;
     trackingClicks := trackingClicks m; trackingOpens := trackingOpens m;
     headers := headers m; variables := variables m; dkimSet := dkimSet m;
     trackingSet := trackingSet m; trackingClicksSet := trackingClicksSet m;
     trackingOpensSet := trackingOpensSet m |}.

Definition set_tracking (v : bool) (m : Message) : Message :=
  {| from := from m; to := to m; cc := cc m; bcc := bcc m;
     subject := subject m; text := text m; html := html m; tags := tags m;
     campaigns := campaigns m; dkim := dkim m;
     deliveryTime := deliveryTime m; attachments := attachments m;
     inlines := inlines m; testMode := testMode m; tracking := v;
     trackingClicks := trackingClicks m; trackingOpens := trackingOpens m;
     headers := headers m; variables := variables m; dkimSet := dkimSet m;
     trackingSet := trackingSet m; trackingClicksSet := trackingClicksSet m;
     trackingOpensSet := trackingOpensSet m |}.

Definition set_trackingClicks (v : bool) (m : Message) : Message :=
  {| from := from m; to := to m; cc := cc m; bcc := bcc m;
     subject := subject m; text := text m; html := html m; tags := tags m;
     campaigns := campaigns m; dkim := dkim m;
     deliveryTime := deliveryTime m; attachments := attachments m;
     inlines := inlines m; testMode := testMode m; tracking := tracking m;
     trackingClicks := v; trackingOpens := trackingOpens m;
     headers := headers m; variables := variables m; dkimSet := dkimSet m;
     trackingSet := trackingSet m; trackingClicksSet := trackingClicksSet m;
     trackingOpensSet := trackingOpensSet m |}.

Definition set_trackingOpens (v : bool) (m : Message) : Message :=
  {| from := from m; to := to m; cc := cc m; bcc := bcc m;
     subject := subject m; text := text m; html := html m; tags := tags m;
     campaigns := campaigns m; dkim := dkim m;
     deliveryTime := deliveryTime m; attachments := attachments m;
     inlines := inlines m; testMode := testMode m; tracking := tracking m;
     trackingClicks := trackingClicks m; trackingOpens := v;
     headers := headers m; variables := variables m; dkimSet := dkimSet m;
     trackingSet := trackingSet m; trackingClicksSet := trackingClicksSet m;
     trackingOpensSet := trackingOpensSet m |}.

Definition set_headers (v : option (gmap string string)) (m : Message) : Message :=
  {| from := from m; to := to m; cc := cc m; bcc := bcc m;
     subject := subject m; text := text m; html := html m; tags := tags m;
     campaigns := campaigns m; dkim := dkim m;
     deliveryTime := deliveryTime m; attachments := attachments m;
     inlines := inlines m; testMode := testMode m; tracking := tracking m;
     trackingClicks := trackingClicks m; trackingOpens := trackingOpens m;
     headers := v; variables := variables m; dkimSet := dkimSet m;
     trackingSet := trackingSet m; trackingClicksSet := trackingClicksSet m;
     trackingOpensSet := trackingOpensSet m |}.

Definition set_variables (v : option (gmap string string)) (m : Message) : Message :=
  {| from := from m; to := to m; cc := cc m; bcc := bcc m;
     subject := subject m; text := text m; html := html m; tags := tags m;
     campaigns := campaigns m; dkim := dkim m;
     deliveryTime := deliveryTime m; attachments := attachments m;
     inlines := inlines m; testMode := testMode m; tracking := tracking m;
     trackingClicks := trackingClicks m; trackingOpens := trackingOpens m;
     headers := headers m; variables := v; dkimSet := dkimSet m;
     trackingSet := trackingSet m; trackingClicksSet := trackingClicksSet m;
     trackingOpensSet := trackingOpensSet m |}.

Definition set_dkimSet (v : bool) (m : Message) : Message :=
  {| from := from m; to := to m; cc := cc m; bcc := bcc m;
     subject := subject m; text := text m; html := html m; tags := tags m;
     campaigns := campaigns m; dkim := dkim m;
     deliveryTime := deliveryTime m; attachments := attachments m;
     inlines := inlines m; testMode := testMode m; tracking := tracking m;
     trackingClicks := trackingClicks m; trackingOpens := trackingOpens m;
     headers := headers m; variables := variables m; dkimSet := v;
     trackingSet := trackingSet m; trackingClicksSet := trackingClicksSet m;
     trackingOpensSet := trackingOpensSet m |}.

Definition set_trackingSet (v : bool) (m : Message) : Message :=
  {| from := from m; to := to m; cc := cc m; bcc := bcc m;
     subject := subject m; text := text m; html := html m; tags := tags m;
     campaigns := campaigns m; dkim := dkim m;
     deliveryTime := deliveryTime m; attachments := attachments m;
     inlines := inlines m; testMode := testMode m; tracking := tracking m;
     trackingClicks := trackingClicks m; trackingOpens := trackingOpens m;
     headers := headers m; variables := variables m; dkimSet := dkimSet m;
     trackingSet := v; trackingClicksSet := trackingClicksSet m;
     trackingOpensSet := trackingOpensSet m |}.

Definition set_trackingClicksSet (v : bool) (m : Message) : Message :=
  {| from := from m; to := to m; cc := cc m; bcc := bcc m;
     subject := subject m; text := text m; html := html m; tags := tags m;
     campaigns := campaigns m; dkim := dkim m;
     deliveryTime := deliveryTime m; attachments := attachments m;
     inlines := inlines m; testMode := testMode m; tracking := tracking m;
     trackingClicks := trackingClicks m; trackingOpens := trackingOpens m;
     headers := headers m; variables := variables m; dkimSet := dkimSet m;
     trackingSet := trackingSet m; trackingClicksSet := v;
     trackingOpensSet := trackingOpensSet m |}.

Definition set_trackingOpensSet (v : bool) (m : Message) : Message :=
  {| from := from m; to := to m; cc := cc m; bcc := bcc m;
     subject := subject m; text := text m; html := html m; tags := tags m;
     campaigns := campaigns m; dkim := dkim m;
     deliveryTime := deliveryTime m; attachments := attachments m;
     inlines := inlines m; testMode := testMode m; tracking := tracking m;
     trackingClicks := trackingClicks m; trackingOpens := trackingOpens m;
     headers := headers m; variables := variables m; dkimSet := dkimSet m;
     trackingSet := trackingSet m; trackingClicksSet := trackingClicksSet m;
     trackingOpensSet := v |}.
(** ** Constructor and mutators *)

Definition NewMessage (from subject text : string) (to : slice string)
  : Message :=
  {| from := from; to := to; cc := None; bcc := None; subject := subject;
     text := text; html := ""; tags := None; campaigns := None;
     dkim := false; deliveryTime := None; attachments := None;
     inlines := None; testMode := false; tracking := false;
     trackingClicks := false; trackingOpens := false; headers := None;
     variables := None; dkimSet := false; trackingSet := false;
     trackingClicksSet := false; trackingOpensSet := false |}.

Definition AddAttachment (attachment : string) (m : Message) : Message :=
  set_attachments (go_append (attachments m) attachment) m.

Definition AddInline (inline : string) (m : Message) : Message :=
  set_inlines (go_append (inlines m) inline) m.

Definition AddRecipient (recipient : string) (m : Message) : Message :=
  set_to (go_append (to m) recipient) m.

Definition AddCC (recipient : string) (m : Message) : Message :=
  set_cc (go_append (cc m) recipient) m.

Definition AddBCC (recipient : string) (m : Message) : Message :=
  set_bcc (go_append (bcc m) recipient) m.

Definition SetHtml (html : string) (m : Message) : Message :=
  set_html html m.

Definition AddTag (tag : string) (m : Message) : Message :=
  set_tags (go_append (tags m) tag) m.

Definition AddCampaign (campaign : string) (m : Message) : Message :=
  set_campaigns (go_append (campaigns m) campaign) m.

Definition SetDKIM (dkim : bool) (m : Message) : Message :=
  set_dkimSet true (set_dkim dkim m).

Definition EnableTestMode (m : Message) : Message :=
  set_testMode true m.

Definition SetDeliveryTime (dt : Time) (m : Message) : Message :=
  set_deliveryTime (Some dt) m.

Definition SetTracking (tracking : bool) (m : Message) : Message :=
  set_trackingSet true (set_tracking tracking m).

Definition SetTrackingClicks (trackingClicks : bool) (m : Message)
  : Message :=
  set_trackingClicksSet true (set_trackingClicks trackingClicks m).

Definition SetTrackingOpens (trackingOpens : bool) (m : Message) : Message :=
  set_trackingOpensSet true (set_trackingOpens trackingOpens m).

(** [if m.f == nil { m.f = make(map[string]string) }] *)
Definition make_if_nil (f : option (gmap string string))
  : gmap string string :=
  match f with
  | None => ∅
  | Some mp => mp
  end.

Definition AddHeader (header value : string) (m : Message) : Message :=
  set_headers (Some (<[header := value]> (make_if_nil (headers m)))) m.

(** Returns the message after the call and the [error] result. *)
Definition AddVariable (variable : string) (value : GoValue) (m : Message)
  : Message * option error :=
  match json_Marshal value with
  | inr err => (m, Some err)
  | inl j =>
      (set_variables (Some (<[variable := j]> (make_if_nil (variables m)))) m,
       None)
  end.

(** ** Validation *)

(** The loop of [validateStringList], with the running [hasOne]. *)
Fixpoint validateStringList_loop (l : list string) (hasOne : bool) : bool :=
  match l with
  | [] => hasOne
  | a :: rest =>
      if String.eqb a "" then false
      else validateStringList_loop rest (hasOne || true)
  end.

Definition validateStringList (list : slice string) (requireOne : bool)
  : bool :=
  match list with
  | None => negb requireOne
  | Some l => validateStringList_loop l false
  end.

(** The rule the validation is meant to implement for a list that is
    there: "present with at least one entry and no empty entries". *)
Definition listed (s : slice string) : Prop :=
  exists l, s = Some l /\ l <> [] /\ ~ In "" l.

(** The receiver is a pointer: [None] is the [nil] receiver. *)
Definition validateMessage (m : option Message) : bool :=
  match m with
  | None => false
  | Some m =>
      if String.eqb (from m) "" then false
      else if negb (validateStringList (to m) true) then false
      else if negb (validateStringList (cc m) false) then false
      else if negb (validateStringList (bcc m) false) then false
      else if negb (validateStringList (tags m) false) then false
      else if negb (validateStringList (campaigns m) false)
                || Nat.ltb 3 (len (campaigns m)) then false
      else if String.eqb (text m) "" then false
      else true
  end.

(** [yesNo] translates a boolean into the yes/no setting of the API. *)
Definition yesNo (b : bool) : string :=
  if b then "yes" else "no".

(** ** Send *)

(** A [*Message]: [nil] or the address of a message in the store. *)
Inductive ptr : Type :=
  | nil_ptr
  | addr (l : positive).

(** The messages the caller owns, and the exchanges made with the
    transport so far (oldest first). *)
Record State : Type := mkState {
  store : gmap positive Message;
  sent : list Exchange
}.

Definition M (A : Type) : Type := State -> A * State.

#[local] Instance M_ret : MRet M := fun A a s => (a, s).
#[local] Instance M_bind : MBind M :=
  fun A B k c s => let (a, s') := c s in k a s'.

Definition load (p : ptr) : M (option Message) :=
  fun s =>
    (match p with
     | nil_ptr => None
     | addr l => store s !! l
     end, s).

Definition post (r : HTTPRequest) (payload : FormDataPayload)
  : M (sendMessageResponse * option error) :=
  fun s =>
    (PostResponseFromJSON (sent s) r payload,
     {| store := store s; sent := sent s ++ [(r, payload)] |}).

(** [for _, a := range l { body }] on the payload. *)
Definition for_range {A : Type} (l : list A)
  (body : A -> FormDataPayload -> FormDataPayload) (p : FormDataPayload)
  : FormDataPayload :=
  fold_left (fun p a => body a p) l p.

(** The serialisation part of [Send]: the payload as it stands when the
    request is posted. *)
Definition buildPayload (message : Message) : FormDataPayload :=
  let payload := NewFormDataPayload in
  let payload := AddValue "from" (from message) payload in
  let payload := AddValue "subject" (subject message) payload in
  let payload := AddValue "text" (text message) payload in
  let payload :=
    for_range (elements (to message)) (AddValue "to") payload in
  let payload :=
    for_range (elements (cc message)) (AddValue "cc") payload in
  let payload :=
    for_range (elements (bcc message)) (AddValue "bcc") payload in
  let payload :=
    for_range (elements (tags message)) (AddValue "o:tag") payload in
  let payload :=
    for_range (elements (campaigns message)) (AddValue "o:campaign")
      payload in
  let payload :=
    if negb (String.eqb (html message) "")
    then AddValue "html" (html message) payload else payload in
  let payload :=
    if dkimSet message
    then AddValue "o:dkim" (yesNo (dkim message)) payload else payload in
  let payload :=
    match deliveryTime message with
    | Some dt =>
        AddValue "o:deliverytime"
          (time_Format dt "Mon, 2 Jan 2006 15:04:05 MST") payload
    | None => payload
    end in
  let payload :=
    if testMode message
    then AddValue "o:testmode" "yes" payload else payload in
  let payload :=
    if trackingSet message
    then AddValue "o:tracking" (yesNo (tracking message)) payload
    else payload in
  let payload :=
    if trackingClicksSet message
    then AddValue "o:tracking-clicks" (yesNo (trackingClicks message))
           payload
    else payload in
  let payload :=
    if trackingOpensSet message
    then AddValue "o:tracking-opens" (yesNo (trackingOpens message)) payload
    else payload in
  let payload :=
    match headers message with
    | Some hs =>
        for_range (range_map hs)
          (fun '(header, value) => AddValue ("h:" +:+ header) value) payload
    | None => payload
    end in
  let payload :=
    match variables message with
    | Some vs =>
        for_range (range_map vs)
          (fun '(variable, value) => AddValue ("v:" +:+ variable) value)
          payload
    | None => payload
    end in
  let payload :=
    match attachments message with
    | Some l => for_range l (AddFile "attachment") payload
    | None => payload
    end in
  let payload :=
    match inlines message with
    | Some l => for_range l (AddFile "inline") payload
    | None => payload
    end in
  payload.

(** The entries one optional scalar field contributes. *)
Definition when (b : bool) (key value : string) : FormDataPayload :=
  if b then [FormValue key value] else [].

Definition prefixed (pre : string) (kv : string * string) : FormEntry :=
  FormValue (pre +:+ fst kv) (snd kv).

(** [buildPayload] written as one concatenation, segment by segment in the
    order of the statements of [Send]; see [buildPayload_segments]. *)
Definition payload_segments (message : Message) : FormDataPayload :=
  [FormValue "from" (from message); FormValue "subject" (subject message);
   FormValue "text" (text message)]
  ++ map (FormValue "to") (elements (to message))
  ++ map (FormValue "cc") (elements (cc message))
  ++ map (FormValue "bcc") (elements (bcc message))
  ++ map (FormValue "o:tag") (elements (tags message))
  ++ map (FormValue "o:campaign") (elements (campaigns message))
  ++ when (negb (String.eqb (html message) "")) "html" (html message)
  ++ when (dkimSet message) "o:dkim" (yesNo (dkim message))
  ++ match deliveryTime message with
     | Some dt =>
         [FormValue "o:deliverytime"
            (time_Format dt "Mon, 2 Jan 2006 15:04:05 MST")]
     | None => []
     end
  ++ when (testMode message) "o:testmode" "yes"
  ++ when (trackingSet message) "o:tracking" (yesNo (tracking message))
  ++ when (trackingClicksSet message) "o:tracking-clicks"
       (yesNo (trackingClicks message))
  ++ when (trackingOpensSet message) "o:tracking-opens"
       (yesNo (trackingOpens message))
  ++ map (prefixed "h:") (from_option range_map [] (headers message))
  ++ map (prefixed "v:") (from_option range_map [] (variables message))
  ++ map (FormFile "attachment") (elements (attachments message))
  ++ map (FormFile "inline") (elements (inlines message)).

(** The request [Send] posts: the messages endpoint with the credentials. *)
Definition sendRequest (m : mailgunImpl) : HTTPRequest :=
  SetBasicAuth basicAuthUser (ApiKey m)
    (NewHTTPRequest (generateApiUrl m messagesEndpoint)).

(** The error [Send] reports for a message that does not validate. *)
Definition ValidationError : error := errors_New "Message not valid".

(** [Send] returns [(mes, id, err)]; the named results start out as
    [""], [""] and [nil]. *)
Definition Send (m : mailgunImpl) (message : ptr)
  : M (string * string * option error) :=
  msg ← load message;
  if negb (validateMessage msg) then mret ("", "", Some ValidationError)
  else
    match msg with
    | None =>
        (* not reached: [validateMessage] is false on the nil receiver *)
        mret ("", "", Some ValidationError)
    | Some message =>
        let r := NewHTTPRequest (generateApiUrl m messagesEndpoint) in
        let payload := buildPayload message in
        let r := SetBasicAuth basicAuthUser (ApiKey m) r in
        '(response, err) ← post r payload;
        match err with
        | None => mret (resp_Message response, resp_Id response, None)
        | Some e => mret ("", "", Some e)
        end
    end.

(** ** Histories of mutator calls

    The fields of a [Message] are unexported: outside the package a message
    is whatever [NewMessage] followed by a sequence of method calls made. *)
Inductive call : Type :=
  | CallAddAttachment (attachment : string)
  | CallAddInline (inline : string)
  | CallAddRecipient (recipient : string)
  | CallAddCC (recipient : string)
  | CallAddBCC (recipient : string)
  | CallSetHtml (html : string)
  | CallAddTag (tag : string)
  | CallAddCampaign (campaign : string)
  | CallSetDKIM (dkim : bool)
  | CallEnableTestMode
  | CallSetDeliveryTime (dt : Time)
  | CallSetTracking (tracking : bool)
  | CallSetTrackingClicks (trackingClicks : bool)
  | CallSetTrackingOpens (trackingOpens : bool)
  | CallAddHeader (header value : string)
  | CallAddVariable (variable : string) (value : GoValue).

Definition run_call (c : call) (m : Message) : Message :=
  match c with
  | CallAddAttachment a => AddAttachment a m
  | CallAddInline i => AddInline i m
  | CallAddRecipient r => AddRecipient r m
  | CallAddCC r => AddCC r m
  | CallAddBCC r => AddBCC r m
  | CallSetHtml h => SetHtml h m
  | CallAddTag t => AddTag t m
  | CallAddCampaign c => AddCampaign c m
  | CallSetDKIM b => SetDKIM b m
  | CallEnableTestMode => EnableTestMode m
  | CallSetDeliveryTime dt => SetDeliveryTime dt m
  | CallSetTracking b => SetTracking b m
  | CallSetTrackingClicks b => SetTrackingClicks b m
  | CallSetTrackingOpens b => SetTrackingOpens b m
  | CallAddHeader h v => AddHeader h v m
  | CallAddVariable k v => fst (AddVariable k v m)
  end.

Definition run_calls (cs : list call) (m : Message) : Message :=
  fold_left (fun m c => run_call c m) cs m.

Definition is_SetTrackingOpens (c : call) : bool :=
  match c with
  | CallSetTrackingOpens _ => true
  | _ => false
  end.

(** The calls that append to one of the five lists [validateMessage]
    looks at. *)
Definition appends_to_validated_list (c : call) : bool :=
  match c with
  | CallAddRecipient _ | CallAddCC _ | CallAddBCC _ | CallAddTag _
  | CallAddCampaign _ => true
  | _ => false
  end.

(** The files uploaded under one wire field name, in order. *)
Fixpoint field_files (key : string) (p : FormDataPayload) : list string :=
  match p with
  | [] => []
  | FormFile k f :: rest =>
      if String.eqb k key then f :: field_files key rest
      else field_files key rest
  | FormValue _ _ :: rest => field_files key rest
  end.

(** The five lists [validateMessage] looks at, with the wire name [Send]
    gives to their entries. *)
Inductive list_field : Type :=
  | FieldTo
  | FieldCC
  | FieldBCC
  | FieldTags
  | FieldCampaigns.

Definition list_of (f : list_field) (m : Message) : slice string :=
  match f with
  | FieldTo => to m
  | FieldCC => cc m
  | FieldBCC => bcc m
  | FieldTags => tags m
  | FieldCampaigns => campaigns m
  end.

Definition wire_name (f : list_field) : string :=
  match f with
  | FieldTo => "to"
  | FieldCC => "cc"
  | FieldBCC => "bcc"
  | FieldTags => "o:tag"
  | FieldCampaigns => "o:campaign"
  end.

End Mailgun.

(** ** A concrete environment

    A small instance of [Externals] on which the definitions above run:
    three kinds of values (booleans and strings marshal, channels do not),
    times that are already formatted, and a transport that queues every
    authenticated request and rejects requests whose API key is empty. *)
Module Demo.

Inductive value : Type :=
  | VBool (b : bool)
  | VString (s : string)
  | VChan.

Definition dquote : ascii := ascii_of_nat 34.

Definition marshal (v : value) : string + error :=
  match v with
  | VBool true => inl "true"
  | VBool false => inl "false"
  | VString s => inl (String dquote (s +:+ String dquote ""))
  | VChan => inr (library_error "json: unsupported type: chan int")
  end.

Record client : Type := mkClient {
  domain : string;
  apiKey : string
}.

Definition respond (history : list Exchange) (r : HTTPRequest)
  (p : FormDataPayload) : sendMessageResponse * option error :=
  match basicAuth r with
  | Some (_, String _ _) =>
      ({| resp_Message := "Queued"; resp_Id := "abc123" |}, None)
  | _ =>
      ({| resp_Message := ""; resp_Id := "" |},
       Some (library_error "401 Unauthorized"))
  end.

#[export] Instance externals : Externals := {|
  GoValue := value;
  json_Marshal := marshal;
  Time := string;
  time_Format := fun t _ => t;
  mailgunImpl := client;
  ApiKey := apiKey;
  generateApiUrl := fun c endpoint =>
    "https://api.mailgun.net/v2/" +:+ domain c +:+ "/" +:+ endpoint;
  messagesEndpoint := "messages";
  basicAuthUser := "api";
  PostResponseFromJSON := respond;
  range_map := map_to_list;
  range_map_perm := fun m => reflexivity (map_to_list m)
|}.

Definition mg : mailgunImpl :=
  {| domain := "example.com"; apiKey := "key-123" |}.

Definition minimal : Message :=
  NewMessage "a@example.com" "hi" "hello" (variadic ["b@example.com"]).

(** A client without an API key: the transport refuses its requests. *)
Definition anonymous : mailgunImpl :=
  {| domain := "example.com"; apiKey := "" |}.

(** A value that does not marshal, and one that does. *)
Definition channel : GoValue := VChan.
Definition greeting : GoValue := VString "x".

Definition no_sender : Message :=
  NewMessage "" "hi" "hello" (variadic ["b@example.com"]).

Definition four_campaigns : Message :=
  AddCampaign "d" (AddCampaign "c" (AddCampaign "b" (AddCampaign "a" minimal))).

(** The state in which [m] is the only message, at address 1, and nothing
    has been exchanged yet. *)
Definition state_of (m : Message) : State :=
  {| store := {[ 1%positive := m ]}; sent := [] |}.

End Demo.

(** * Properties *)

Section Properties.
Context `{Ext : Externals}.

(** ** Validation *)

Lemma validateStringList_loop_true (l : list string) (hasOne : bool) :
  validateStringList_loop l hasOne = true <->
  ~ In "" l /\ (l <> [] \/ hasOne = true).
Proof.
  revert hasOne; induction l as [|a rest IH]; intros hasOne; simpl.
  - split; [intros ->; split; [tauto | now right] | intros [_ [H|H]]; congruence].
  - destruct (String.eqb_spec a "") as [->|Hne].
    + split; [discriminate | intros [H _]; exfalso; apply H; now left].
    + rewrite IH, orb_true_r. split.
      * intros [Hin _]. split; [intros [E|E]; [congruence | tauto] | now left].
      * intros [Hin _]. split; [tauto | now right].
Qed.

Lemma validateStringList_required (s : slice string) :
  validateStringList s true = true <-> listed s.
Proof.
  unfold listed; destruct s as [l|]; simpl.
  - rewrite validateStringList_loop_true. split.
    + intros [Hin [Hne|E]]; [|discriminate]. exists l; auto.
    + intros (l' & E & Hne & Hin). injection E as <-. auto.
  - split; [discriminate | intros (l & E & _); discriminate].
Qed.

Lemma validateStringList_optional (s : slice string) :
  validateStringList s false = true <-> s = None \/ listed s.
Proof.
  unfold listed; destruct s as [l|]; simpl.
  - rewrite validateStringList_loop_true. split.
    + intros [Hin [Hne|E]]; [|discriminate]. right; exists l; auto.
    + intros [E|(l' & E & Hne & Hin)]; [discriminate|]. injection E as <-. auto.
  - split; auto.
Qed.

Lemma validateStringList_empty (requireOne : bool) :
  validateStringList (Some []) requireOne = false.
Proof. reflexivity. Qed.

Lemma validateMessage_nil : validateMessage None = false.
Proof. reflexivity. Qed.

(** The sequence of early returns of [validateMessage] as one conjunction. *)
Lemma validateMessage_andb (m : Message) :
  validateMessage (Some m) =
  negb (String.eqb (from m) "")
  && validateStringList (to m) true
  && validateStringList (cc m) false
  && validateStringList (bcc m) false
  && validateStringList (tags m) false
  && (validateStringList (campaigns m) false
      && negb (Nat.ltb 3 (len (campaigns m))))
  && negb (String.eqb (text m) "").
Proof.
  unfold validateMessage.
  destruct (String.eqb (from m) ""); [reflexivity|].
  destruct (validateStringList (to m) true); [|reflexivity].
  destruct (validateStringList (cc m) false); [|reflexivity].
  destruct (validateStringList (bcc m) false); [|reflexivity].
  destruct (validateStringList (tags m) false); [|reflexivity].
  destruct (validateStringList (campaigns m) false); [|reflexivity].
  destruct (Nat.ltb 3 (len (campaigns m))); [reflexivity|].
  destruct (String.eqb (text m) ""); reflexivity.
Qed.

Lemma validateMessage_true (m : Message) :
  validateMessage (Some m) = true <->
  from m <> ""
  /\ listed (to m)
  /\ (cc m = None \/ listed (cc m))
  /\ (bcc m = None \/ listed (bcc m))
  /\ (tags m = None \/ listed (tags m))
  /\ (campaigns m = None \/ (listed (campaigns m) /\ len (campaigns m) <= 3))
  /\ text m <> "".
Proof.
  rewrite validateMessage_andb, !andb_true_iff, !negb_true_iff.
  rewrite !String.eqb_neq, Nat.ltb_ge.
  rewrite validateStringList_required, !validateStringList_optional.
  split.
  - intros ((((((Hf & Ht) & Hc) & Hb) & Hg) & (Hp & Hn)) & Hx).
    repeat split; try assumption.
    destruct Hp as [Hp|Hp]; [now left | right; split; assumption].
  - intros (Hf & Ht & Hc & Hb & Hg & Hp & Hx).
    repeat split; try assumption.
    + destruct Hp as [Hp|[Hp _]]; [now left | now right].
    + destruct Hp as [Hp|[_ Hn]]; [rewrite Hp; unfold len; simpl; lia | assumption].
Qed.

(** C1: [validateMessage] accepts a message exactly when [from] is
    non-empty, [to] is present with at least one entry and no empty entry,
    each of [cc], [bcc] and [tags] is absent or so present, [campaigns] is
    absent or so present with at most 3 entries, and [text] is non-empty.
    A present but empty list is rejected by [validateStringList] whether
    or not the list is required, and it makes the message invalid in each
    of the five list fields. *)
Theorem validateMessage_iff_fields (m : Message) :
  (validateMessage (Some m) = true <->
   from m <> ""
   /\ listed (to m)
   /\ (cc m = None \/ listed (cc m))
   /\ (bcc m = None \/ listed (bcc m))
   /\ (tags m = None \/ listed (tags m))
   /\ (campaigns m = None
       \/ (listed (campaigns m) /\ len (campaigns m) <= 3))
   /\ text m <> "")
  /\ (forall requireOne, validateStringList (Some []) requireOne = false)
  /\ validateMessage (Some (set_to (Some []) m)) = false
  /\ validateMessage (Some (set_cc (Some []) m)) = false
  /\ validateMessage (Some (set_bcc (Some []) m)) = false
  /\ validateMessage (Some (set_tags (Some []) m)) = false
  /\ validateMessage (Some (set_campaigns (Some []) m)) = false.
Proof.
  split; [apply validateMessage_true|].
  split; [apply validateStringList_empty|].
  repeat split; rewrite validateMessage_andb; simpl;
    rewrite ?andb_false_r; reflexivity.
Qed.

(** ** The payload *)

Lemma for_range_nil {A : Type}
  (body : A -> FormDataPayload -> FormDataPayload) (p : FormDataPayload) :
  for_range [] body p = p.
Proof. reflexivity. Qed.

Lemma for_range_cons {A : Type} (a : A) (l : list A)
  (body : A -> FormDataPayload -> FormDataPayload) (p : FormDataPayload) :
  for_range (a :: l) body p = for_range l body (body a p).
Proof. reflexivity. Qed.

Lemma for_range_entries {A : Type} (entry : A -> FormEntry) (l : list A)
  (body : A -> FormDataPayload -> FormDataPayload) (p : FormDataPayload) :
  (forall a q, body a q = q ++ [entry a]) ->
  for_range l body p = p ++ map entry l.
Proof.
  intros Hbody. revert p; induction l as [|a l IH]; intros p.
  - rewrite for_range_nil. simpl. now rewrite app_nil_r.
  - rewrite for_range_cons, IH, Hbody. simpl. now rewrite <- app_assoc.
Qed.

Lemma for_range_AddValue (key : string) (l : list string)
  (p : FormDataPayload) :
  for_range l (AddValue key) p = p ++ map (FormValue key) l.
Proof. now apply for_range_entries. Qed.

Lemma for_range_AddFile (key : string) (l : list string)
  (p : FormDataPayload) :
  for_range l (AddFile key) p = p ++ map (FormFile key) l.
Proof. now apply for_range_entries. Qed.

Lemma for_range_prefixed (pre : string) (l : list (string * string))
  (p : FormDataPayload) :
  for_range l (fun '(k, v) => AddValue (pre +:+ k) v) p
  = p ++ map (prefixed pre) l.
Proof. apply for_range_entries. now intros [k v] q. Qed.

Lemma AddValue_when (b : bool) (key value : string) (p : FormDataPayload) :
  (if b then AddValue key value p else p) = p ++ when b key value.
Proof. destruct b; simpl; [reflexivity | now rewrite app_nil_r]. Qed.

Lemma buildPayload_segments (message : Message) :
  buildPayload message = payload_segments message.
Proof.
  unfold buildPayload, payload_segments.
  cbv zeta.
  destruct (deliveryTime message) as [dt|];
  destruct (headers message) as [hs|];
  destruct (variables message) as [vs|];
  destruct (attachments message) as [atts|];
  destruct (inlines message) as [ins|];
  rewrite ?for_range_prefixed, ?for_range_AddFile, !for_range_AddValue,
    !AddValue_when;
  unfold NewFormDataPayload, AddValue;
  simpl from_option; simpl elements; simpl map;
  rewrite ?app_nil_r, <- ?app_assoc; reflexivity.
Qed.

Lemma field_values_app (key : string) (p q : FormDataPayload) :
  field_values key (p ++ q) = field_values key p ++ field_values key q.
Proof.
  induction p as [|[k v|k f] p IH]; simpl; [reflexivity| |assumption].
  destruct (String.eqb k key); simpl; now rewrite IH.
Qed.

Lemma field_values_FormValue (key k : string) (l : list string) :
  field_values key (map (FormValue k) l) = if String.eqb k key then l else [].
Proof.
  induction l as [|a l IH]; simpl.
  - now destruct (String.eqb k key).
  - destruct (String.eqb k key); [now rewrite IH | assumption].
Qed.

Lemma field_values_FormFile (key k : string) (l : list string) :
  field_values key (map (FormFile k) l) = [].
Proof. induction l; simpl; auto. Qed.

Lemma field_values_when (key : string) (b : bool) (k v : string) :
  field_values key (when b k v) = if b && String.eqb k key then [v] else [].
Proof. destruct b; simpl; [now destruct (String.eqb k key) | reflexivity]. Qed.

(** Header and variable entries carry a prefix, so they never collide
    with a wire name that starts with another character. *)
Lemma field_values_prefixed (a b : ascii) (pre key : string)
  (l : list (string * string)) :
  Ascii.eqb a b = false ->
  field_values (String b key) (map (prefixed (String a pre)) l) = [].
Proof.
  intros Hab. induction l as [|[k v] l IH]; simpl; [reflexivity|].
  now rewrite Hab.
Qed.

(** Evaluates [field_values] of a fixed option name on [buildPayload]. *)
Ltac field_values_of_payload :=
  rewrite buildPayload_segments; unfold payload_segments;
  rewrite !field_values_app, !field_values_FormValue, !field_values_FormFile,
    !field_values_when;
  rewrite !field_values_prefixed by reflexivity;
  simpl;
  match goal with
  | |- context [deliveryTime ?m] => destruct (deliveryTime m)
  | _ => idtac
  end; simpl; rewrite ?andb_false_r, ?andb_true_r, ?app_nil_r.

Lemma field_values_tracking_opens (m : Message) :
  field_values "o:tracking-opens" (buildPayload m)
  = if trackingOpensSet m then [yesNo (trackingOpens m)] else [].
Proof. field_values_of_payload; reflexivity. Qed.

Lemma field_values_testmode (m : Message) :
  field_values "o:testmode" (buildPayload m)
  = if testMode m then ["yes"] else [].
Proof. field_values_of_payload; reflexivity. Qed.

(** ** Send *)

Lemma Send_invalid (mg : mailgunImpl) (p : ptr) (st : State) :
  validateMessage (fst (load p st)) = false ->
  Send mg p st = (("", "", Some ValidationError), st).
Proof.
  intros Hv. unfold Send, mbind, M_bind. simpl in *. now rewrite Hv.
Qed.

Lemma Send_valid (mg : mailgunImpl) (l : positive) (st : State)
  (m : Message) :
  store st !! l = Some m ->
  validateMessage (Some m) = true ->
  Send mg (addr l) st =
  (match PostResponseFromJSON (sent st) (sendRequest mg) (buildPayload m) with
   | (response, None) => (resp_Message response, resp_Id response, None)
   | (_, Some e) => ("", "", Some e)
   end,
   {| store := store st;
      sent := sent st ++ [(sendRequest mg, buildPayload m)] |}).
Proof.
  intros Hl Hv. unfold Send, mbind, M_bind, load, post. rewrite Hl, Hv.
  simpl. fold (sendRequest mg).
  destruct (PostResponseFromJSON (sent st) (sendRequest mg) (buildPayload m))
    as [response [e|]]; reflexivity.
Qed.

Lemma Send_cases (mg : mailgunImpl) (p : ptr) (st : State) :
  snd (Send mg p st) = st
  \/ exists m,
       snd (Send mg p st)
       = {| store := store st;
            sent := sent st ++ [(sendRequest mg, buildPayload m)] |}.
Proof.
  destruct (validateMessage (fst (load p st))) eqn:Hv.
  - destruct p as [|l]; simpl in Hv; [discriminate|].
    destruct (store st !! l) as [m|] eqn:Hl; [|discriminate].
    right. exists m. now rewrite (Send_valid mg l st m Hl Hv).
  - left. now rewrite Send_invalid.
Qed.

(** C2: when the message's [from] is the empty string, [Send] returns the
    validation error with empty status and id, and the state, hence the
    list of exchanges made with the transport, is what it was. *)
Theorem Send_empty_from (mg : mailgunImpl) (l : positive) (st : State)
  (m : Message) :
  store st !! l = Some m ->
  from m = "" ->
  Send mg (addr l) st = (("", "", Some ValidationError), st)
  /\ sent (snd (Send mg (addr l) st)) = sent st.
Proof.
  intros Hl Hfrom.
  assert (Hs : Send mg (addr l) st = (("", "", Some ValidationError), st)).
  { apply Send_invalid. simpl. rewrite Hl. simpl. now rewrite Hfrom. }
  split; [exact Hs | now rewrite Hs].
Qed.

(** C3: a message whose [campaigns] has 4 entries is rejected by [Send]
    with the validation error, whatever the entries and the other fields
    are. *)
Theorem Send_four_campaigns (mg : mailgunImpl) (l : positive) (st : State)
  (m : Message) (cs : list string) :
  store st !! l = Some m ->
  campaigns m = Some cs ->
  length cs = 4 ->
  validateMessage (Some m) = false
  /\ Send mg (addr l) st = (("", "", Some ValidationError), st).
Proof.
  intros Hl Hc Hlen.
  assert (Hv : validateMessage (Some m) = false).
  { destruct (validateMessage (Some m)) eqn:E; [|reflexivity].
    apply validateMessage_true in E as (_ & _ & _ & _ & _ & Hcamp & _).
    destruct Hcamp as [Hnone|[_ Hle]]; [congruence|].
    unfold len in Hle. rewrite Hc in Hle. simpl in Hle. lia. }
  split; [exact Hv|]. apply Send_invalid. simpl. now rewrite Hl.
Qed.

(** ** Optional fields on the wire *)

Lemma run_calls_app (cs cs' : list call) (m : Message) :
  run_calls (cs ++ cs') m = run_calls cs' (run_calls cs m).
Proof. apply fold_left_app. Qed.

Lemma run_call_trackingOpens (c : call) (m : Message) :
  is_SetTrackingOpens c = false ->
  trackingOpensSet (run_call c m) = trackingOpensSet m
  /\ trackingOpens (run_call c m) = trackingOpens m.
Proof.
  destruct c; simpl; try discriminate; intros _; try (split; reflexivity).
  unfold AddVariable. destruct (json_Marshal value); split; reflexivity.
Qed.

Lemma run_calls_trackingOpens (cs : list call) (m : Message) :
  forallb (fun c => negb (is_SetTrackingOpens c)) cs = true ->
  trackingOpensSet (run_calls cs m) = trackingOpensSet m
  /\ trackingOpens (run_calls cs m) = trackingOpens m.
Proof.
  revert m; induction cs as [|c cs IH]; intros m Hcs; [split; reflexivity|].
  simpl in Hcs. apply andb_true_iff in Hcs as [Hc Hcs].
  apply negb_true_iff in Hc.
  change (run_calls (c :: cs) m) with (run_calls cs (run_call c m)).
  destruct (IH (run_call c m) Hcs) as [-> ->].
  now apply run_call_trackingOpens.
Qed.

(** C4: take a message on which [SetTrackingOpens(false)] was called, with
    no later call of that setter, and a message built by [NewMessage] and
    calls none of which is that setter.  The payload of the first carries
    [o:tracking-opens] exactly once, with value "no"; the payload of the
    second carries no [o:tracking-opens] at all; so the payloads differ.
    When the messages are valid these are the payloads [Send] posts. *)
Theorem tracking_opens_no_or_omitted
  (init : Message) (before after calls : list call)
  (from_ subject_ text_ : string) (to_ : slice string) :
  forallb (fun c => negb (is_SetTrackingOpens c)) after = true ->
  forallb (fun c => negb (is_SetTrackingOpens c)) calls = true ->
  let explicit_no :=
    run_calls (before ++ CallSetTrackingOpens false :: after) init in
  let never_set := run_calls calls (NewMessage from_ subject_ text_ to_) in
  field_values "o:tracking-opens" (buildPayload explicit_no) = ["no"]
  /\ field_values "o:tracking-opens" (buildPayload never_set) = []
  /\ buildPayload explicit_no <> buildPayload never_set.
Proof.
  intros Hafter Hcalls explicit_no never_set.
  assert (Hno : field_values "o:tracking-opens" (buildPayload explicit_no)
                = ["no"]).
  { rewrite field_values_tracking_opens. subst explicit_no.
    rewrite run_calls_app.
    change (run_calls (CallSetTrackingOpens false :: after) ?m)
      with (run_calls after (SetTrackingOpens false m)).
    destruct (run_calls_trackingOpens after
                (SetTrackingOpens false (run_calls before init)) Hafter)
      as [-> ->].
    reflexivity. }
  assert (Hnone : field_values "o:tracking-opens" (buildPayload never_set)
                  = []).
  { rewrite field_values_tracking_opens. subst never_set.
    destruct (run_calls_trackingOpens calls
                (NewMessage from_ subject_ text_ to_) Hcalls) as [-> _].
    reflexivity. }
  repeat split; try assumption.
  intros E. rewrite E, Hnone in Hno. discriminate.
Qed.

Lemma In_field_values (key v : string) (p : FormDataPayload) :
  In v (field_values key p) <-> In (FormValue key v) p.
Proof.
  induction p as [|[k w|k f] p IH]; simpl; [tauto| |].
  - destruct (String.eqb_spec k key) as [->|Hne]; simpl; rewrite IH.
    + split; (intros [E|H]; [left; congruence | now right]).
    + split; [now right | intros [E|H]; [congruence | assumption]].
  - rewrite IH. split; [now right | intros [E|H]; [discriminate | assumption]].
Qed.

(** C5: the payload of a message carries [o:testmode] exactly once, with
    the value "yes", when test mode is on, and not at all when it is off;
    whatever value is sent under that name is "yes", never "no". *)
Theorem testmode_yes_or_omitted (m : Message) :
  field_values "o:testmode" (buildPayload m)
  = (if testMode m then ["yes"] else [])
  /\ (forall v, In (FormValue "o:testmode" v) (buildPayload m) <->
                testMode m = true /\ v = "yes")
  /\ ~ In (FormValue "o:testmode" "no") (buildPayload m).
Proof.
  assert (H : forall v, In (FormValue "o:testmode" v) (buildPayload m) <->
                        testMode m = true /\ v = "yes").
  { intros v. rewrite <- In_field_values, field_values_testmode.
    destruct (testMode m); simpl.
    - split; [intros [E|[]]; auto | intros [_ ->]; now left].
    - split; [tauto | intros [E _]; discriminate]. }
  split; [apply field_values_testmode|]. split; [exact H|].
  intros Hin. apply H in Hin as [_ E]. discriminate.
Qed.

(** ** Custom variables *)

Lemma variable_in_payload (m : Message) (vs : gmap string string)
  (variable j : string) :
  variables m = Some vs ->
  vs !! variable = Some j ->
  In (FormValue ("v:" +:+ variable) j) (buildPayload m).
Proof.
  intros Hvs Hj.
  assert (Hin : In (FormValue ("v:" +:+ variable) j)
                  (map (prefixed "v:") (from_option range_map [] (variables m)))).
  { rewrite Hvs. simpl from_option.
    change (FormValue ("v:" +:+ variable) j)
      with (prefixed "v:" (variable, j)).
    apply in_map. apply list_elem_of_In.
    rewrite (range_map_perm vs). now apply elem_of_map_to_list. }
  rewrite buildPayload_segments. unfold payload_segments.
  rewrite !in_app_iff. tauto.
Qed.

(** C6: [AddVariable] marshals the value during the call.  When
    [json.Marshal] fails, its error is the (non-nil) result of the call.
    When it yields the text [j], the call returns [nil] and the message's
    variables, a map from strings to strings, bind the name to [j], other
    names being as before; that text is what a later payload carries. *)
Theorem AddVariable_marshals_on_call (m : Message) (variable : string)
  (value : GoValue) :
  match json_Marshal value with
  | inr err => snd (AddVariable variable value m) = Some err
  | inl j =>
      snd (AddVariable variable value m) = None
      /\ (exists vs : gmap string string,
            variables (fst (AddVariable variable value m)) = Some vs
            /\ vs !! variable = Some j
            /\ forall k, k <> variable ->
                 vs !! k = make_if_nil (variables m) !! k)
      /\ In (FormValue ("v:" +:+ variable) j)
           (buildPayload (fst (AddVariable variable value m)))
  end.
Proof.
  unfold AddVariable. destruct (json_Marshal value) as [j|err]; simpl.
  - split; [reflexivity|]. split.
    + eexists. split; [reflexivity|]. split.
      * apply lookup_insert_eq.
      * intros k Hk. now apply lookup_insert_ne.
    + eapply variable_in_payload; [reflexivity | apply lookup_insert_eq].
  - reflexivity.
Qed.

(** C10: when marshalling the value fails, [AddVariable] returns the
    message it was given: every field is as before, and in particular the
    variables map stays [nil] if it was [nil]. *)
Theorem AddVariable_error_leaves_message (m : Message) (variable : string)
  (value : GoValue) (err : error) :
  json_Marshal value = inr err ->
  AddVariable variable value m = (m, Some err)
  /\ variables (fst (AddVariable variable value m)) = variables m
  /\ (variables m = None ->
      variables (fst (AddVariable variable value m)) = None).
Proof.
  intros Herr. unfold AddVariable. rewrite Herr. simpl. auto.
Qed.

(** ** The minimal message *)

(** C7: the message made by [NewMessage] from a@example.com, hi, hello and
    the single recipient b@example.com validates; its payload is exactly
    the four values from, subject, text, to, so none of o:tracking,
    o:tracking-clicks, o:tracking-opens, o:dkim, o:testmode occurs in it;
    and this is the payload [Send] posts for it. *)
Theorem minimal_message_payload :
  let m :=
    NewMessage "a@example.com" "hi" "hello" (variadic ["b@example.com"]) in
  let wire :=
    [FormValue "from" "a@example.com"; FormValue "subject" "hi";
     FormValue "text" "hello"; FormValue "to" "b@example.com"] in
  validateMessage (Some m) = true
  /\ buildPayload m = wire
  /\ field_values "o:tracking" (buildPayload m) = []
  /\ field_values "o:tracking-clicks" (buildPayload m) = []
  /\ field_values "o:tracking-opens" (buildPayload m) = []
  /\ field_values "o:dkim" (buildPayload m) = []
  /\ field_values "o:testmode" (buildPayload m) = []
  /\ forall (mg : mailgunImpl) (l : positive) (s : gmap positive Message)
       (h : list Exchange),
       sent (snd (Send mg (addr l) {| store := <[l := m]> s; sent := h |}))
       = h ++ [(sendRequest mg, wire)].
Proof.
  intros m wire.
  assert (Hv : validateMessage (Some m) = true) by reflexivity.
  assert (Hp : buildPayload m = wire) by reflexivity.
  rewrite Hp. repeat split; try reflexivity.
  intros mg l s h.
  rewrite (Send_valid mg l _ m); [| apply lookup_insert_eq | exact Hv].
  simpl. now rewrite Hp.
Qed.

(** ** The exchange and its outcome *)

(** C8: for a valid message [Send] makes one exchange, posting the
    message's payload.  If the exchange reports an error, [Send] returns
    that error with empty status and id; otherwise it returns the message
    and id of the decoded response with a nil error. *)
Theorem Send_interprets_exchange (mg : mailgunImpl) (l : positive)
  (st : State) (m : Message) :
  store st !! l = Some m ->
  validateMessage (Some m) = true ->
  sent (snd (Send mg (addr l) st))
  = sent st ++ [(sendRequest mg, buildPayload m)]
  /\ match
       PostResponseFromJSON (sent st) (sendRequest mg) (buildPayload m)
     with
     | (_, Some e) => fst (Send mg (addr l) st) = ("", "", Some e)
     | (response, None) =>
         fst (Send mg (addr l) st)
         = (resp_Message response, resp_Id response, None)
     end.
Proof.
  intros Hl Hv. rewrite (Send_valid mg l st m Hl Hv). simpl.
  split; [reflexivity|].
  destruct (PostResponseFromJSON (sent st) (sendRequest mg) (buildPayload m))
    as [response [e|]]; reflexivity.
Qed.

(** C9: [Send] leaves the store of messages as it found it, whether it
    fails or succeeds: every pointer reads the same message, field for
    field, after the call as before, so the message can be sent again. *)
Theorem Send_preserves_messages (mg : mailgunImpl) (p : ptr) (st : State) :
  store (snd (Send mg p st)) = store st
  /\ forall q : ptr, fst (load q (snd (Send mg p st))) = fst (load q st).
Proof.
  assert (Hs : store (snd (Send mg p st)) = store st).
  { destruct (Send_cases mg p st) as [->|[m ->]]; reflexivity. }
  split; [exact Hs|]. intros q. unfold load. simpl. now rewrite Hs.
Qed.

(** * Further properties of the package *)

(** ** What the mutators keep *)

Lemma run_call_scalars (c : call) (m : Message) :
  from (run_call c m) = from m
  /\ subject (run_call c m) = subject m
  /\ text (run_call c m) = text m.
Proof.
  destruct c; simpl; try (repeat split; reflexivity).
  unfold AddVariable. destruct (json_Marshal value); repeat split.
Qed.

Lemma run_calls_scalars (cs : list call) (m : Message) :
  from (run_calls cs m) = from m
  /\ subject (run_calls cs m) = subject m
  /\ text (run_calls cs m) = text m.
Proof.
  revert m; induction cs as [|c cs IH]; intros m; [repeat split|].
  change (run_calls (c :: cs) m) with (run_calls cs (run_call c m)).
  destruct (IH (run_call c m)) as (-> & -> & ->). apply run_call_scalars.
Qed.

(** The validated lists only ever grow at the end. *)
Lemma run_call_list_grows (f : list_field) (c : call) (m : Message) :
  exists extra,
    elements (list_of f (run_call c m)) = elements (list_of f m) ++ extra.
Proof.
  destruct c;
    try (exists []; destruct f; simpl; now rewrite app_nil_r);
    try (destruct f; simpl;
         solve [ eexists; reflexivity
               | exists []; now rewrite app_nil_r ]).
  exists []. rewrite app_nil_r. simpl. unfold AddVariable.
  destruct (json_Marshal value); destruct f; reflexivity.
Qed.

Lemma run_calls_list_grows (f : list_field) (cs : list call) (m : Message) :
  exists extra,
    elements (list_of f (run_calls cs m)) = elements (list_of f m) ++ extra.
Proof.
  revert m; induction cs as [|c cs IH]; intros m.
  - exists []. now rewrite app_nil_r.
  - change (run_calls (c :: cs) m) with (run_calls cs (run_call c m)).
    destruct (IH (run_call c m)) as [e2 ->].
    destruct (run_call_list_grows f c m) as [e1 ->].
    exists (e1 ++ e2). now rewrite app_assoc.
Qed.

Lemma run_call_list_kept (f : list_field) (c : call) (m : Message) :
  appends_to_validated_list c = false ->
  list_of f (run_call c m) = list_of f m.
Proof.
  destruct c; simpl; try discriminate; intros _;
    try (destruct f; reflexivity).
  unfold AddVariable. destruct (json_Marshal value); destruct f; reflexivity.
Qed.

(** [validateMessage] reads [from], [text] and the five lists only. *)
Lemma validateMessage_ext (m m' : Message) :
  from m = from m' ->
  text m = text m' ->
  (forall f, list_of f m = list_of f m') ->
  validateMessage (Some m) = validateMessage (Some m').
Proof.
  intros Hf Ht Hl. rewrite !validateMessage_andb, Hf, Ht.
  pose proof (Hl FieldTo) as H1. pose proof (Hl FieldCC) as H2.
  pose proof (Hl FieldBCC) as H3. pose proof (Hl FieldTags) as H4.
  pose proof (Hl FieldCampaigns) as H5. simpl in *.
  now rewrite H1, H2, H3, H4, H5.
Qed.

Lemma validateStringList_In_empty (s : slice string) (requireOne : bool) :
  In "" (elements s) -> validateStringList s requireOne = false.
Proof.
  destruct s as [l|]; simpl; [|tauto]. intros Hin.
  destruct (validateStringList_loop l false) eqn:E; [|reflexivity].
  apply validateStringList_loop_true in E as [Hnin _]. tauto.
Qed.

Lemma listed_elements (s : slice string) :
  s = None \/ listed s -> ~ In "" (elements s).
Proof.
  intros [->|(l & -> & _ & Hnin)]; simpl; tauto.
Qed.

Lemma validateMessage_lists_clean (f : list_field) (m : Message) :
  validateMessage (Some m) = true -> ~ In "" (elements (list_of f m)).
Proof.
  intros Hv.
  apply validateMessage_true in Hv as (_ & Ht & Hc & Hb & Hg & Hp & _).
  destruct f; simpl; apply listed_elements; auto.
  destruct Hp as [Hp|[Hp _]]; auto.
Qed.

(** X1: a message fresh from [NewMessage] validates exactly when [from]
    and [text] are non-empty and the recipients are present, at least one,
    none empty; its payload is from, subject, text and the recipients in
    order, nothing else. *)
Theorem NewMessage_fresh (from_ subject_ text_ : string)
  (to_ : slice string) :
  (validateMessage (Some (NewMessage from_ subject_ text_ to_)) = true <->
   from_ <> "" /\ listed to_ /\ text_ <> "")
  /\ buildPayload (NewMessage from_ subject_ text_ to_)
     = [FormValue "from" from_; FormValue "subject" subject_;
        FormValue "text" text_] ++ map (FormValue "to") (elements to_).
Proof.
  split.
  - rewrite validateMessage_true. simpl. split.
    + intros (Hf & Ht & _ & _ & _ & _ & Hx). auto.
    + intros (Hf & Ht & Hx). repeat split; auto.
  - rewrite buildPayload_segments. unfold payload_segments. simpl.
    now rewrite app_nil_r.
Qed.

(** X2: for a list that is not nil the verdict of [validateStringList]
    does not depend on [requireOne]: it is true exactly when the list has
    an entry and no entry is the empty string. *)
Theorem validateStringList_present (l : list string) (requireOne : bool) :
  validateStringList (Some l) requireOne
  = negb (Nat.eqb (length l) 0)
    && forallb (fun a => negb (String.eqb a "")) l.
Proof.
  simpl. destruct l as [|a l]; [reflexivity|].
  simpl. destruct (String.eqb a ""); [reflexivity|]. simpl.
  induction l as [|b l IH]; [reflexivity|].
  simpl. destruct (String.eqb b ""); [reflexivity|]. exact IH.
Qed.


(** X4: once a message has more than 3 campaigns it is invalid after
    every further sequence of calls: [AddCampaign] has no bound of its
    own and nothing removes a campaign. *)
Theorem too_many_campaigns_never_recover (m : Message) (cs : list call) :
  3 < len (campaigns m) ->
  validateMessage (Some (run_calls cs m)) = false.
Proof.
  intros Hlen.
  destruct (validateMessage (Some (run_calls cs m))) eqn:E; [|reflexivity].
  exfalso.
  apply validateMessage_true in E as (_ & _ & _ & _ & _ & Hp & _).
  destruct (run_calls_list_grows FieldCampaigns cs m) as [extra Hg].
  simpl in Hg. unfold len in *.
  destruct Hp as [Hp|[_ Hle]].
  - rewrite Hp in Hg. simpl in Hg. symmetry in Hg.
    apply app_eq_nil in Hg as [Hg _]. rewrite Hg in Hlen. simpl in Hlen. lia.
  - rewrite Hg, length_app in Hle. lia.
Qed.

(** X5: no method writes [from] or [text]: a message whose [from] or
    [text] is empty stays invalid whatever is called on it afterwards. *)
Theorem empty_from_or_text_never_recovers (m : Message) (cs : list call) :
  from m = "" \/ text m = "" ->
  validateMessage (Some (run_calls cs m)) = false.
Proof.
  intros H.
  destruct (validateMessage (Some (run_calls cs m))) eqn:E; [|reflexivity].
  apply validateMessage_true in E as (Hf & _ & _ & _ & _ & _ & Hx).
  destruct (run_calls_scalars cs m) as (Ef & _ & Ex).
  rewrite Ef in Hf. rewrite Ex in Hx. tauto.
Qed.

(** X6: attachments, inlines, html, DKIM, test mode, delivery time, the
    tracking options, headers and variables are not validated: calls other
    than the five list appends leave the verdict of [validateMessage] as
    it was. *)
Theorem options_do_not_affect_validity (m : Message) (cs : list call) :
  forallb (fun c => negb (appends_to_validated_list c)) cs = true ->
  validateMessage (Some (run_calls cs m)) = validateMessage (Some m).
Proof.
  revert m; induction cs as [|c cs IH]; intros m Hcs; [reflexivity|].
  simpl in Hcs. apply andb_true_iff in Hcs as [Hc Hcs].
  apply negb_true_iff in Hc.
  change (run_calls (c :: cs) m) with (run_calls cs (run_call c m)).
  rewrite (IH _ Hcs).
  destruct (run_call_scalars c m) as (Ef & _ & Ex).
  apply validateMessage_ext; auto.
  intros f. now apply run_call_list_kept.
Qed.

(** ** More of the payload *)

Lemma eqb_append_prefix (pre k key : string) :
  String.eqb (pre +:+ k) key = true -> String.prefix pre key = true.
Proof.
  revert key; induction pre as [|a pre IH]; intros key; simpl.
  - now destruct key.
  - destruct key as [|b key]; [discriminate|].
    destruct (Ascii.eqb_spec a b) as [->|Hne]; [|discriminate].
    intros H. simpl String.prefix.
    destruct (ascii_dec b b); [now apply IH | congruence].
Qed.

(** An entry named with a prefix is only found under names that start
    with that prefix. *)
Lemma field_values_not_prefixed (pre key : string)
  (l : list (string * string)) :
  String.prefix pre key = false ->
  field_values key (map (prefixed pre) l) = [].
Proof.
  intros Hpre. induction l as [|[k v] l IH]; simpl; [reflexivity|].
  destruct (String.eqb (pre +:+ k) key) eqn:E; [|exact IH].
  apply eqb_append_prefix in E. congruence.
Qed.

(** Evaluates [field_values] of any fixed name that is not a header or a
    variable on [buildPayload]. *)
Ltac field_values_of_fixed_name :=
  rewrite buildPayload_segments; unfold payload_segments;
  rewrite !field_values_app, !field_values_FormValue, !field_values_FormFile,
    !field_values_when;
  rewrite !field_values_not_prefixed by reflexivity;
  simpl;
  match goal with
  | |- context [deliveryTime ?m] => destruct (deliveryTime m)
  | _ => idtac
  end; simpl; rewrite ?andb_false_r, ?andb_true_r, ?app_nil_r.

Lemma field_values_list (f : list_field) (m : Message) :
  field_values (wire_name f) (buildPayload m) = elements (list_of f m).
Proof. destruct f; field_values_of_fixed_name; reflexivity. Qed.

(** X7: the entries of [to], [cc], [bcc], [tags] and [campaigns] are sent
    under their wire name one by one, in the order they were added and
    with repetitions; an append call adds its argument as the last value
    of that name. *)
Theorem lists_are_sent_in_order (f : list_field) (m : Message)
  (x : string) :
  field_values (wire_name f) (buildPayload m) = elements (list_of f m)
  /\ field_values "to" (buildPayload (AddRecipient x m))
     = field_values "to" (buildPayload m) ++ [x]
  /\ field_values "cc" (buildPayload (AddCC x m))
     = field_values "cc" (buildPayload m) ++ [x]
  /\ field_values "bcc" (buildPayload (AddBCC x m))
     = field_values "bcc" (buildPayload m) ++ [x]
  /\ field_values "o:tag" (buildPayload (AddTag x m))
     = field_values "o:tag" (buildPayload m) ++ [x]
  /\ field_values "o:campaign" (buildPayload (AddCampaign x m))
     = field_values "o:campaign" (buildPayload m) ++ [x].
Proof.
  split; [apply field_values_list|].
  rewrite !(field_values_list FieldTo), !(field_values_list FieldCC),
    !(field_values_list FieldBCC), !(field_values_list FieldTags),
    !(field_values_list FieldCampaigns).
  repeat split; reflexivity.
Qed.

Lemma field_values_dkim (m : Message) :
  field_values "o:dkim" (buildPayload m)
  = if dkimSet m then [yesNo (dkim m)] else [].
Proof. field_values_of_fixed_name; reflexivity. Qed.

Lemma field_values_tracking (m : Message) :
  field_values "o:tracking" (buildPayload m)
  = if trackingSet m then [yesNo (tracking m)] else [].
Proof. field_values_of_fixed_name; reflexivity. Qed.

Lemma field_values_tracking_clicks (m : Message) :
  field_values "o:tracking-clicks" (buildPayload m)
  = if trackingClicksSet m then [yesNo (trackingClicks m)] else [].
Proof. field_values_of_fixed_name; reflexivity. Qed.

Lemma field_values_deliverytime (m : Message) :
  field_values "o:deliverytime" (buildPayload m)
  = match deliveryTime m with
    | Some dt => [time_Format dt "Mon, 2 Jan 2006 15:04:05 MST"]
    | None => []
    end.
Proof.
  rewrite buildPayload_segments; unfold payload_segments.
  rewrite !field_values_app, !field_values_FormValue, !field_values_FormFile,
    !field_values_when.
  rewrite !field_values_not_prefixed by reflexivity.
  simpl. rewrite ?andb_false_r. simpl.
  destruct (deliveryTime m); reflexivity.
Qed.

Lemma field_values_html (m : Message) :
  field_values "html" (buildPayload m)
  = if String.eqb (html m) "" then [] else [html m].
Proof.
  field_values_of_fixed_name; destruct (String.eqb (html m) ""); reflexivity.
Qed.


(** X9: the html body is sent once under [html] when it is not empty and
    not at all when it is empty, so [SetHtml("")] withdraws a body set
    earlier. *)
Theorem html_sent_unless_empty (h : string) (m : Message) :
  field_values "html" (buildPayload m)
  = (if String.eqb (html m) "" then [] else [html m])
  /\ field_values "html" (buildPayload (SetHtml h m))
     = (if String.eqb h "" then [] else [h])
  /\ field_values "html" (buildPayload (SetHtml "" (SetHtml h m))) = [].
Proof.
  rewrite !field_values_html. simpl. repeat split; reflexivity.
Qed.

(** X10: a delivery time is sent once under [o:deliverytime], formatted
    with the layout "Mon, 2 Jan 2006 15:04:05 MST"; a message that never
    got one sends none; setting it again replaces the earlier time. *)
Theorem delivery_time_on_the_wire (dt dt' : Time) (m : Message) :
  field_values "o:deliverytime" (buildPayload (SetDeliveryTime dt m))
  = [time_Format dt "Mon, 2 Jan 2006 15:04:05 MST"]
  /\ SetDeliveryTime dt' (SetDeliveryTime dt m) = SetDeliveryTime dt' m
  /\ (deliveryTime m = None ->
      field_values "o:deliverytime" (buildPayload m) = []).
Proof.
  rewrite !field_values_deliverytime. simpl.
  repeat split; try reflexivity. now intros ->.
Qed.

(** The switches of the options only go from off to on. *)
Lemma run_call_switches (c : call) (m : Message) :
  (dkimSet m = true -> dkimSet (run_call c m) = true)
  /\ (is_Some (deliveryTime m) -> is_Some (deliveryTime (run_call c m)))
  /\ (testMode m = true -> testMode (run_call c m) = true)
  /\ (trackingSet m = true -> trackingSet (run_call c m) = true)
  /\ (trackingClicksSet m = true -> trackingClicksSet (run_call c m) = true)
  /\ (trackingOpensSet m = true -> trackingOpensSet (run_call c m) = true).
Proof.
  destruct c; simpl;
    try (unfold AddVariable; destruct (json_Marshal value); simpl);
    repeat split; auto.
Qed.

Lemma run_calls_switches (cs : list call) (m : Message) :
  (dkimSet m = true -> dkimSet (run_calls cs m) = true)
  /\ (is_Some (deliveryTime m) -> is_Some (deliveryTime (run_calls cs m)))
  /\ (testMode m = true -> testMode (run_calls cs m) = true)
  /\ (trackingSet m = true -> trackingSet (run_calls cs m) = true)
  /\ (trackingClicksSet m = true -> trackingClicksSet (run_calls cs m) = true)
  /\ (trackingOpensSet m = true -> trackingOpensSet (run_calls cs m) = true).
Proof.
  revert m; induction cs as [|c cs IH]; intros m; [repeat split; auto|].
  change (run_calls (c :: cs) m) with (run_calls cs (run_call c m)).
  destruct (IH (run_call c m)) as (H1 & H2 & H3 & H4 & H5 & H6).
  destruct (run_call_switches c m) as (G1 & G2 & G3 & G4 & G5 & G6).
  repeat split; auto.
Qed.

(** X11: an option cannot be withdrawn.  Once the payload carries
    [o:dkim], [o:deliverytime], [o:testmode], [o:tracking],
    [o:tracking-clicks] or [o:tracking-opens], it still carries that field
    after any further sequence of calls: there is no method that turns
    test mode off, clears the delivery time or unsets a setter flag. *)
Theorem options_cannot_be_withdrawn (key : string) (m : Message)
  (cs : list call) :
  In key ["o:dkim"; "o:deliverytime"; "o:testmode"; "o:tracking";
          "o:tracking-clicks"; "o:tracking-opens"] ->
  field_values key (buildPayload m) <> [] ->
  field_values key (buildPayload (run_calls cs m)) <> [].
Proof.
  destruct (run_calls_switches cs m) as (H1 & H2 & H3 & H4 & H5 & H6).
  intros [<-|[<-|[<-|[<-|[<-|[<-|[]]]]]]].
  - rewrite !field_values_dkim.
    destruct (dkimSet m); [|congruence]. now rewrite H1.
  - rewrite !field_values_deliverytime.
    destruct (deliveryTime m) as [dt|]; [|congruence].
    destruct (H2 (ex_intro _ dt eq_refl)) as [dt' ->]. discriminate.
  - rewrite !field_values_testmode.
    destruct (testMode m); [|congruence]. now rewrite H3.
  - rewrite !field_values_tracking.
    destruct (trackingSet m); [|congruence]. now rewrite H4.
  - rewrite !field_values_tracking_clicks.
    destruct (trackingClicksSet m); [|congruence]. now rewrite H5.
  - rewrite !field_values_tracking_opens.
    destruct (trackingOpensSet m); [|congruence]. now rewrite H6.
Qed.

(** ** File uploads *)

Lemma field_files_app (key : string) (p q : FormDataPayload) :
  field_files key (p ++ q) = field_files key p ++ field_files key q.
Proof.
  induction p as [|[k v|k f] p IH]; simpl; [reflexivity|assumption|].
  destruct (String.eqb k key); simpl; now rewrite IH.
Qed.

Lemma field_files_FormValue (key k : string) (l : list string) :
  field_files key (map (FormValue k) l) = [].
Proof. induction l; simpl; auto. Qed.

Lemma field_files_prefixed (key pre : string) (l : list (string * string)) :
  field_files key (map (prefixed pre) l) = [].
Proof. induction l; simpl; auto. Qed.

Lemma field_files_when (key : string) (b : bool) (k v : string) :
  field_files key (when b k v) = [].
Proof. now destruct b. Qed.

Lemma field_files_FormFile (key k : string) (l : list string) :
  field_files key (map (FormFile k) l) = if String.eqb k key then l else [].
Proof.
  induction l as [|a l IH]; simpl.
  - now destruct (String.eqb k key).
  - destruct (String.eqb k key); [now rewrite IH | assumption].
Qed.

(** X12: the file uploads of a payload are the attachments under
    [attachment] and the inlines under [inline], each in the order they
    were added; no other name carries a file. *)
Theorem files_are_attachments_and_inlines (key : string) (m : Message) :
  field_files key (buildPayload m)
  = (if String.eqb "attachment" key then elements (attachments m) else [])
    ++ (if String.eqb "inline" key then elements (inlines m) else []).
Proof.
  rewrite buildPayload_segments. unfold payload_segments.
  rewrite !field_files_app, !field_files_FormValue, !field_files_when,
    !field_files_prefixed, !field_files_FormFile.
  destruct (deliveryTime m); reflexivity.
Qed.

(** ** Headers and variables *)

Lemma eqb_append (pre k1 k2 : string) :
  String.eqb (pre +:+ k1) (pre +:+ k2) = String.eqb k1 k2.
Proof.
  induction pre as [|a pre IH]; simpl; [reflexivity|].
  now rewrite Ascii.eqb_refl.
Qed.

Lemma field_values_prefixed_absent (pre k : string)
  (l : list (string * string)) :
  ~ In k (map fst l) ->
  field_values (pre +:+ k) (map (prefixed pre) l) = [].
Proof.
  induction l as [|[k' v'] l IH]; simpl; [reflexivity|]. intros Hnin.
  unfold prefixed at 1. simpl. rewrite eqb_append.
  destruct (String.eqb_spec k' k) as [->|Hne]; [tauto|]. apply IH. tauto.
Qed.

Lemma field_values_prefixed_present (pre k v : string)
  (l : list (string * string)) :
  NoDup (map fst l) ->
  In (k, v) l ->
  field_values (pre +:+ k) (map (prefixed pre) l) = [v].
Proof.
  induction l as [|[k' v'] l IH]; simpl; [tauto|]. intros Hnd Hin.
  apply NoDup_cons in Hnd as [Hk' Hnd]. rewrite list_elem_of_In in Hk'.
  unfold prefixed at 1. simpl. rewrite eqb_append.
  destruct Hin as [E|Hin].
  - injection E as -> ->. rewrite String.eqb_refl.
    now rewrite field_values_prefixed_absent.
  - destruct (String.eqb_spec k' k) as [->|Hne]; [|now apply IH].
    exfalso. apply Hk'. apply in_map_iff. now exists (k, v).
Qed.

(** The entries a ranged-over map contributes under one prefixed name:
    the value bound to the name, if any, whatever the iteration order. *)
Lemma field_values_range_map (pre k : string) (mp : gmap string string) :
  field_values (pre +:+ k) (map (prefixed pre) (range_map mp))
  = match mp !! k with
    | Some v => [v]
    | None => []
    end.
Proof.
  assert (Hnd : NoDup (map fst (range_map mp))).
  { rewrite (Permutation_map fst (range_map_perm mp)).
    apply NoDup_fst_map_to_list. }
  destruct (mp !! k) as [v|] eqn:Hk.
  - apply field_values_prefixed_present; [exact Hnd|].
    apply list_elem_of_In. rewrite (range_map_perm mp).
    now apply elem_of_map_to_list.
  - apply field_values_prefixed_absent. intros Hin.
    apply in_map_iff in Hin as ([k' v] & E & Hin). simpl in E. subst k'.
    apply list_elem_of_In in Hin. rewrite (range_map_perm mp) in Hin.
    apply elem_of_map_to_list in Hin. congruence.
Qed.

Lemma from_option_range_map (pre k : string)
  (o : option (gmap string string)) :
  field_values (pre +:+ k) (map (prefixed pre) (from_option range_map [] o))
  = match make_if_nil o !! k with
    | Some v => [v]
    | None => []
    end.
Proof.
  destruct o as [mp|]; simpl from_option; simpl make_if_nil.
  - apply field_values_range_map.
  - now rewrite lookup_empty.
Qed.

Lemma field_values_header (h : string) (m : Message) :
  field_values ("h:" +:+ h) (buildPayload m)
  = match make_if_nil (headers m) !! h with
    | Some v => [v]
    | None => []
    end.
Proof.
  rewrite buildPayload_segments; unfold payload_segments.
  rewrite !field_values_app, !field_values_FormValue, !field_values_FormFile,
    !field_values_when.
  rewrite from_option_range_map.
  rewrite (field_values_not_prefixed "v:") by reflexivity.
  simpl. rewrite ?andb_false_r. simpl.
  destruct (deliveryTime m); simpl; now rewrite app_nil_r.
Qed.

Lemma field_values_variable (k : string) (m : Message) :
  field_values ("v:" +:+ k) (buildPayload m)
  = match make_if_nil (variables m) !! k with
    | Some v => [v]
    | None => []
    end.
Proof.
  rewrite buildPayload_segments; unfold payload_segments.
  rewrite !field_values_app, !field_values_FormValue, !field_values_FormFile,
    !field_values_when.
  rewrite from_option_range_map.
  rewrite (field_values_not_prefixed "h:") by reflexivity.
  simpl. rewrite ?andb_false_r. simpl.
  destruct (deliveryTime m); simpl; now rewrite app_nil_r.
Qed.

(** X13: a header is sent once, under [h:] followed by its name, with the
    value of the latest [AddHeader] for that name: adding it again
    overwrites.  Adding a header changes neither what is sent for other
    headers nor what is sent for any variable. *)
Theorem header_sent_once_with_last_value (h v v' : string) (m : Message) :
  field_values ("h:" +:+ h) (buildPayload (AddHeader h v m)) = [v]
  /\ AddHeader h v' (AddHeader h v m) = AddHeader h v' m
  /\ (forall h', h' <> h ->
        field_values ("h:" +:+ h') (buildPayload (AddHeader h v m))
        = field_values ("h:" +:+ h') (buildPayload m))
  /\ (forall k,
        field_values ("v:" +:+ k) (buildPayload (AddHeader h v m))
        = field_values ("v:" +:+ k) (buildPayload m)).
Proof.
  split; [|split; [|split]].
  - rewrite field_values_header. simpl. now rewrite lookup_insert_eq.
  - unfold AddHeader, set_headers. simpl. now rewrite insert_insert_eq.
  - intros h' Hne. rewrite !field_values_header. simpl.
    now rewrite lookup_insert_ne.
  - intros k. rewrite !field_values_variable. reflexivity.
Qed.

(** X14: a variable whose value marshals is sent once, under [v:]
    followed by its name, as the JSON text of the latest [AddVariable] for
    that name; other variables are sent as before.  When marshalling
    fails, what is sent for every variable is as before. *)
Theorem variable_sent_once_with_last_value (k : string) (value : GoValue)
  (m : Message) :
  match json_Marshal value with
  | inl j =>
      field_values ("v:" +:+ k) (buildPayload (fst (AddVariable k value m)))
      = [j]
      /\ forall k', k' <> k ->
           field_values ("v:" +:+ k')
             (buildPayload (fst (AddVariable k value m)))
           = field_values ("v:" +:+ k') (buildPayload m)
  | inr _ =>
      forall k',
        field_values ("v:" +:+ k')
          (buildPayload (fst (AddVariable k value m)))
        = field_values ("v:" +:+ k') (buildPayload m)
  end.
Proof.
  unfold AddVariable. destruct (json_Marshal value) as [j|err]; simpl.
  - split.
    + rewrite field_values_variable. simpl. now rewrite lookup_insert_eq.
    + intros k' Hne. rewrite !field_values_variable. simpl.
      now rewrite lookup_insert_ne.
  - reflexivity.
Qed.

(** ** More of Send *)

Lemma Send_outcome (mg : mailgunImpl) (p : ptr) (st : State) :
  (validateMessage (fst (load p st)) = false
   /\ Send mg p st = (("", "", Some ValidationError), st))
  \/ (exists m,
        fst (load p st) = Some m
        /\ validateMessage (Some m) = true
        /\ Send mg p st =
           (match
              PostResponseFromJSON (sent st) (sendRequest mg) (buildPayload m)
            with
            | (response, None) =>
                (resp_Message response, resp_Id response, None)
            | (_, Some e) => ("", "", Some e)
            end,
            {| store := store st;
               sent := sent st ++ [(sendRequest mg, buildPayload m)] |})).
Proof.
  destruct (validateMessage (fst (load p st))) eqn:Hv.
  - right. destruct p as [|l]; simpl in Hv; [discriminate|].
    destruct (store st !! l) as [m|] eqn:Hl; [|discriminate].
    exists m. simpl. rewrite Hl. repeat split; auto.
    now apply Send_valid.
  - left. split; [reflexivity|]. now apply Send_invalid.
Qed.

(** X15: [Send] makes an exchange exactly when the message validates, and
    then exactly one: the message's payload, posted to the messages
    endpoint with the account name and the API key as basic
    authentication.  For a nil message or one that does not validate the
    list of exchanges is as before. *)
Theorem Send_posts_once_iff_valid (mg : mailgunImpl) (p : ptr)
  (st : State) :
  sent (snd (Send mg p st))
  = sent st
    ++ match fst (load p st) with
       | Some m =>
           if validateMessage (Some m)
           then [(sendRequest mg, buildPayload m)] else []
       | None => []
       end
  /\ URL (sendRequest mg) = generateApiUrl mg messagesEndpoint
  /\ basicAuth (sendRequest mg) = Some (basicAuthUser, ApiKey mg).
Proof.
  split; [|split; reflexivity].
  destruct (Send_outcome mg p st) as [[Hv ->]|(m & Hm & Hv & ->)];
    cbn [snd sent].
  - revert Hv. destruct (fst (load p st)) as [m|]; intros Hv;
      [rewrite Hv|]; now rewrite app_nil_r.
  - now rewrite Hm, Hv.
Qed.

(** X16: the status and the message id are set only if no error
    occurred: whenever [Send] returns an error both strings are empty;
    and for a message that does not validate the error is never nil. *)
Theorem Send_error_means_empty_results (mg : mailgunImpl) (p : ptr)
  (st : State) :
  match fst (Send mg p st) with
  | (mes, id, Some _) => mes = "" /\ id = ""
  | (_, _, None) => validateMessage (fst (load p st)) = true
  end.
Proof.
  destruct (Send_outcome mg p st) as [[Hv ->]|(m & Hm & Hv & ->)];
    cbn [fst].
  - auto.
  - destruct (PostResponseFromJSON (sent st) (sendRequest mg) (buildPayload m))
      as [response [e|]]; [auto|]. now rewrite Hm.
Qed.

Lemma field_values_from (m : Message) :
  field_values "from" (buildPayload m) = [from m].
Proof. field_values_of_fixed_name; reflexivity. Qed.

Lemma field_values_subject (m : Message) :
  field_values "subject" (buildPayload m) = [subject m].
Proof. field_values_of_fixed_name; reflexivity. Qed.

Lemma field_values_text (m : Message) :
  field_values "text" (buildPayload m) = [text m].
Proof. field_values_of_fixed_name; reflexivity. Qed.

(** X17: whatever [Send] posts is well formed: one non-empty [from], one
    non-empty [text], one [subject], at least one [to], no empty value
    under [to], [cc], [bcc], [o:tag] or [o:campaign], and at most 3
    campaigns. *)
Theorem Send_posts_well_formed (mg : mailgunImpl) (p : ptr) (st : State)
  (r : HTTPRequest) (payload : FormDataPayload) :
  sent (snd (Send mg p st)) = sent st ++ [(r, payload)] ->
  (exists f t,
     field_values "from" payload = [f] /\ f <> ""
     /\ field_values "text" payload = [t] /\ t <> "")
  /\ length (field_values "subject" payload) = 1
  /\ field_values "to" payload <> []
  /\ (forall fld, ~ In "" (field_values (wire_name fld) payload))
  /\ length (field_values "o:campaign" payload) <= 3.
Proof.
  intros Hsent.
  destruct (Send_outcome mg p st) as [[_ E]|(m & _ & Hv & E)];
    rewrite E in Hsent; simpl in Hsent.
  - apply (f_equal (@length _)) in Hsent.
    rewrite length_app in Hsent. simpl in Hsent. lia.
  - apply app_inv_head in Hsent. injection Hsent as _ <-.
    pose proof (fun fld => validateMessage_lists_clean fld m Hv) as Hclean.
    apply validateMessage_true in Hv as (Hf & Ht & _ & _ & _ & Hp & Hx).
    rewrite field_values_from, field_values_text, field_values_subject.
    rewrite (field_values_list FieldTo), (field_values_list FieldCampaigns).
    split; [exists (from m), (text m); auto|].
    split; [reflexivity|]. split; [|split].
    + destruct Ht as (l & E' & Hne & _). simpl. now rewrite E'.
    + intros fld. rewrite field_values_list. apply Hclean.
    + simpl list_of.
      destruct Hp as [->|[_ Hle]]; [simpl; lia | exact Hle].
Qed.

(** ** Appending to a valid message *)

Lemma listed_go_append (s : slice string) (x : string) :
  x <> "" -> ~ In "" (elements s) -> listed (go_append s x).
Proof.
  intros Hx Hs. exists (elements s ++ [x]). split; [reflexivity|].
  split; [now destruct (elements s)|].
  intros Hin. apply in_app_or in Hin as [Hin|[E|[]]]; [tauto | congruence].
Qed.

(** X18: appending a non-empty recipient, cc, bcc or tag to a valid
    message keeps it valid; appending a non-empty campaign keeps it valid
    while there were fewer than 3 campaigns and makes it invalid when
    there were 3 already. *)
Theorem nonempty_appends_keep_validity (x : string) (m : Message) :
  validateMessage (Some m) = true ->
  x <> "" ->
  validateMessage (Some (AddRecipient x m)) = true
  /\ validateMessage (Some (AddCC x m)) = true
  /\ validateMessage (Some (AddBCC x m)) = true
  /\ validateMessage (Some (AddTag x m)) = true
  /\ validateMessage (Some (AddCampaign x m))
     = Nat.ltb (len (campaigns m)) 3.
Proof.
  intros Hv Hx.
  pose proof (fun fld => validateMessage_lists_clean fld m Hv) as Hclean.
  pose proof (proj1 (validateMessage_true m) Hv)
    as (Hf & Ht & Hc & Hb & Hg & Hp & Htx).
  repeat split.
  - apply validateMessage_true. simpl. repeat split; auto.
    apply listed_go_append; [exact Hx | apply (Hclean FieldTo)].
  - apply validateMessage_true. simpl. repeat split; auto.
    right. apply listed_go_append; [exact Hx | apply (Hclean FieldCC)].
  - apply validateMessage_true. simpl. repeat split; auto.
    right. apply listed_go_append; [exact Hx | apply (Hclean FieldBCC)].
  - apply validateMessage_true. simpl. repeat split; auto.
    right. apply listed_go_append; [exact Hx | apply (Hclean FieldTags)].
  - destruct (Nat.ltb_spec (len (campaigns m)) 3) as [Hlt|Hge].
    + apply validateMessage_true. simpl. repeat split; auto.
      right. split.
      * apply listed_go_append; [exact Hx | apply (Hclean FieldCampaigns)].
      * unfold len in *. simpl. rewrite length_app. simpl. lia.
    + destruct (validateMessage (Some (AddCampaign x m))) eqn:E;
        [|reflexivity].
      apply validateMessage_true in E as (_ & _ & _ & _ & _ & Hp' & _).
      simpl in Hp'. destruct Hp' as [Hp'|[_ Hle]]; [discriminate|].
      unfold len in *. simpl in Hle. rewrite length_app in Hle.
      simpl in Hle. lia.
Qed.

(** X19: [NewMessage] called without recipients yields an invalid
    message; recipients can be supplied afterwards.  After one
    [AddRecipient] on a fresh message the verdict is true exactly when
    [from], the added recipient and [text] are non-empty and none of the
    initial recipients, if any, is empty. *)
Theorem recipients_can_be_added_later (from_ subject_ text_ r : string)
  (to_ : slice string) :
  validateMessage (Some (NewMessage from_ subject_ text_ (variadic [])))
  = false
  /\ (validateMessage
        (Some (AddRecipient r (NewMessage from_ subject_ text_ to_))) = true
      <-> from_ <> "" /\ r <> "" /\ text_ <> ""
          /\ ~ In "" (elements to_)).
Proof.
  split.
  - rewrite validateMessage_andb. simpl. now rewrite andb_false_r.
  - rewrite validateMessage_true. simpl. split.
    + intros (Hf & (l & E & _ & Hnin) & _ & _ & _ & _ & Hx).
      injection E as <-. repeat split; auto.
      * intros ->. apply Hnin, in_or_app. right. now left.
      * intros Hin. apply Hnin, in_or_app. now left.
    + intros (Hf & Hr & Hx & Hnin). repeat split; auto.
      now apply listed_go_append.
Qed.

End Properties.

(** * The theorems at work on the concrete environment *)

Lemma Send_empty_from_witness :
  store (Demo.state_of Demo.no_sender) !! 1%positive = Some Demo.no_sender
  /\ from Demo.no_sender = ""
  /\ Send Demo.mg (addr 1) (Demo.state_of Demo.no_sender)
     = (("", "", Some ValidationError), Demo.state_of Demo.no_sender)
  /\ sent (snd (Send Demo.mg (addr 1) (Demo.state_of Demo.no_sender)))
     = sent (Demo.state_of Demo.no_sender).
Proof.
  split; [reflexivity|]. split; [reflexivity|].
  apply (Send_empty_from Demo.mg 1 (Demo.state_of Demo.no_sender)
           Demo.no_sender); reflexivity.
Defined.

Lemma Send_four_campaigns_witness :
  validateMessage (Some (set_campaigns None Demo.four_campaigns)) = true
  /\ campaigns Demo.four_campaigns = Some ["a"; "b"; "c"; "d"]
  /\ validateMessage (Some Demo.four_campaigns) = false
  /\ Send Demo.mg (addr 1) (Demo.state_of Demo.four_campaigns)
     = (("", "", Some ValidationError), Demo.state_of Demo.four_campaigns).
Proof.
  split; [reflexivity|]. split; [reflexivity|].
  apply (Send_four_campaigns Demo.mg 1 (Demo.state_of Demo.four_campaigns)
           Demo.four_campaigns ["a"; "b"; "c"; "d"]); reflexivity.
Defined.

Lemma tracking_opens_no_or_omitted_witness :
  let explicit_no :=
    run_calls [CallAddTag "t"; CallSetTrackingOpens false;
               CallAddHeader "X-A" "1"] Demo.minimal in
  let never_set :=
    run_calls [CallEnableTestMode; CallSetTracking false]
      (NewMessage (Ext := Demo.externals) "a@example.com" "hi" "hello"
         (variadic ["b@example.com"])) in
  validateMessage (Some explicit_no) = true
  /\ validateMessage (Some never_set) = true
  /\ field_values "o:tracking-opens" (buildPayload explicit_no) = ["no"]
  /\ field_values "o:tracking-opens" (buildPayload never_set) = []
  /\ buildPayload explicit_no <> buildPayload never_set.
Proof.
  split; [reflexivity|]. split; [reflexivity|].
  apply (tracking_opens_no_or_omitted Demo.minimal
           [CallAddTag "t"] [CallAddHeader "X-A" "1"]
           [CallEnableTestMode; CallSetTracking false]
           "a@example.com" "hi" "hello" (variadic ["b@example.com"]));
    reflexivity.
Defined.

Lemma Send_interprets_exchange_witness :
  store (Demo.state_of Demo.minimal) !! 1%positive = Some Demo.minimal
  /\ validateMessage (Some Demo.minimal) = true
  /\ sent (snd (Send Demo.mg (addr 1) (Demo.state_of Demo.minimal)))
     = [(sendRequest Demo.mg, buildPayload Demo.minimal)]
  /\ fst (Send Demo.mg (addr 1) (Demo.state_of Demo.minimal))
     = ("Queued", "abc123", None).
Proof.
  split; [reflexivity|]. split; [reflexivity|].
  apply (Send_interprets_exchange Demo.mg 1 (Demo.state_of Demo.minimal)
           Demo.minimal); reflexivity.
Defined.

Lemma AddVariable_error_leaves_message_witness :
  json_Marshal Demo.channel
  = inr (library_error "json: unsupported type: chan int")
  /\ AddVariable "ch" Demo.channel Demo.minimal
     = (Demo.minimal,
        Some (library_error "json: unsupported type: chan int"))
  /\ variables (fst (AddVariable "ch" Demo.channel Demo.minimal))
     = variables Demo.minimal
  /\ (variables Demo.minimal = None ->
      variables (fst (AddVariable "ch" Demo.channel Demo.minimal)) = None).
Proof.
  split; [reflexivity|].
  apply (AddVariable_error_leaves_message Demo.minimal "ch" Demo.channel
           (library_error "json: unsupported type: chan int")).
  reflexivity.
Defined.

(** The end-to-end scenarios: a valid minimal message is queued; a client
    the transport refuses gets the transport's error; a message without
    text is rejected before anything is posted. *)
Example Send_minimal_queued :
  Send Demo.mg (addr 1) (Demo.state_of Demo.minimal)
  = (("Queued", "abc123", None),
     {| store := store (Demo.state_of Demo.minimal);
        sent :=
          [({| URL := "https://api.mailgun.net/v2/example.com/messages";
               basicAuth := Some ("api", "key-123") |},
            [FormValue "from" "a@example.com"; FormValue "subject" "hi";
             FormValue "text" "hello"; FormValue "to" "b@example.com"])] |}).
Proof. reflexivity. Qed.

Example Send_refused :
  fst (Send Demo.anonymous (addr 1) (Demo.state_of Demo.minimal))
  = ("", "", Some (library_error "401 Unauthorized")).
Proof. reflexivity. Qed.

Example Send_empty_tag :
  Send Demo.mg (addr 1)
    (Demo.state_of (set_tags (Some [""]) Demo.minimal))
  = (("", "", Some ValidationError),
     Demo.state_of (set_tags (Some [""]) Demo.minimal)).
Proof. reflexivity. Qed.

Example Send_nil_message :
  Send Demo.mg nil_ptr (Demo.state_of Demo.minimal)
  = (("", "", Some ValidationError), Demo.state_of Demo.minimal).
Proof. reflexivity. Qed.

Example payload_with_options :
  buildPayload
    (fst (AddVariable "k" Demo.greeting
            (AddHeader "X-A" "1" (SetTrackingOpens false Demo.minimal))))
  = [FormValue "from" "a@example.com"; FormValue "subject" "hi";
     FormValue "text" "hello"; FormValue "to" "b@example.com";
     FormValue "o:tracking-opens" "no"; FormValue "h:X-A" "1";
     FormValue "v:k" (String Demo.dquote ("x" +:+ String Demo.dquote ""))].
Proof. vm_compute. reflexivity. Qed.

(** * The further properties at work on the concrete environment *)


Lemma too_many_campaigns_never_recover_witness :
  3 < len (campaigns Demo.four_campaigns)
  /\ validateMessage
       (Some (run_calls [CallAddTag "t"; CallEnableTestMode]
                Demo.four_campaigns))
     = false.
Proof.
  split; [vm_compute; lia|].
  apply (too_many_campaigns_never_recover Demo.four_campaigns
           [CallAddTag "t"; CallEnableTestMode]).
  vm_compute; lia.
Defined.

Lemma empty_from_or_text_never_recovers_witness :
  (from Demo.no_sender = "" \/ text Demo.no_sender = "")
  /\ validateMessage
       (Some (run_calls [CallAddRecipient "c@example.com"; CallSetDKIM true]
                Demo.no_sender))
     = false.
Proof.
  split; [now left|].
  apply (empty_from_or_text_never_recovers Demo.no_sender
           [CallAddRecipient "c@example.com"; CallSetDKIM true]).
  now left.
Defined.

Lemma options_do_not_affect_validity_witness :
  validateMessage
    (Some (run_calls [CallAddAttachment ""; CallSetHtml "";
                      CallAddHeader "" ""; CallEnableTestMode]
             Demo.minimal))
  = validateMessage (Some Demo.minimal).
Proof.
  apply (options_do_not_affect_validity Demo.minimal
           [CallAddAttachment ""; CallSetHtml ""; CallAddHeader "" "";
            CallEnableTestMode]).
  reflexivity.
Defined.

Lemma options_cannot_be_withdrawn_witness :
  field_values "o:testmode" (buildPayload (EnableTestMode Demo.minimal))
  <> []
  /\ field_values "o:testmode"
       (buildPayload
          (run_calls [CallSetTracking false; CallAddTag "t"]
             (EnableTestMode Demo.minimal)))
     <> [].
Proof.
  split; [discriminate|].
  apply (options_cannot_be_withdrawn "o:testmode"
           (EnableTestMode Demo.minimal)
           [CallSetTracking false; CallAddTag "t"]).
  - right; right; now left.
  - discriminate.
Defined.

Lemma Send_posts_well_formed_witness :
  sent (snd (Send Demo.mg (addr 1) (Demo.state_of Demo.minimal)))
  = sent (Demo.state_of Demo.minimal)
    ++ [(sendRequest Demo.mg, buildPayload Demo.minimal)]
  /\ field_values "to" (buildPayload Demo.minimal) <> []
  /\ length (field_values "o:campaign" (buildPayload Demo.minimal)) <= 3.
Proof.
  split; [reflexivity|].
  destruct (Send_posts_well_formed Demo.mg (addr 1)
              (Demo.state_of Demo.minimal) (sendRequest Demo.mg)
              (buildPayload Demo.minimal) eq_refl)
    as (_ & _ & Hto & _ & Hcamp).
  split; assumption.
Defined.

Lemma nonempty_appends_keep_validity_witness :
  validateMessage (Some Demo.minimal) = true
  /\ "c@example.com" <> ""
  /\ validateMessage (Some (AddRecipient "c@example.com" Demo.minimal)) = true
  /\ validateMessage (Some (AddCC "c@example.com" Demo.minimal)) = true
  /\ validateMessage (Some (AddBCC "c@example.com" Demo.minimal)) = true
  /\ validateMessage (Some (AddTag "c@example.com" Demo.minimal)) = true
  /\ validateMessage (Some (AddCampaign "c@example.com" Demo.minimal))
     = Nat.ltb (len (campaigns Demo.minimal)) 3.
Proof.
  split; [reflexivity|]. split; [discriminate|].
  apply (nonempty_appends_keep_validity "c@example.com" Demo.minimal);
    [reflexivity | discriminate].
Defined.
